(** * Loyalty points calculator: scoring, ranking and bonus allocation

    A shallow embedding of [app.py] (the engine behind the Streamlit page)
    and the properties of its specification.

    Layout of the development:
    - [Arith]: the arithmetic the script runs on.  Python computes the points
      with binary64 numbers; the script itself is written once over the
      interface and is read at two instances, [binary64] (Rocq's primitive
      floats, bit for bit what CPython and NumPy compute) and [exact]
      (rationals, the arithmetic in which "up to rounding" statements are
      exact).
    - the tables: rows of a data frame, timestamps, the in-place validator
      [process_data] over a store of data-frame objects.
    - [calculate_loyalty_points], the ranking and the three allocation
      columns of [top_50].
    - the theorems, one block per property. *)

From Stdlib Require Import ZArith QArith Qfield Lqa Floats Lia List Ascii String.
From stdpp Require Import gmap strings list sorting.

Local Open Scope Z_scope.

(* ================================================================== *)
(** * Arithmetic *)
(* ================================================================== *)

(** The operations the script applies to point values.  [of_int] is the
    implicit conversion Python performs when an [int] meets a [float]. *)
Class Arith (F : Type) : Type := {
  of_int : Z → F;
  fadd : F → F → F;
  fmul : F → F → F;
  fdiv : F → F → F;
  flt : F → F → bool;
  feq : F → F → bool
}.

(** A decimal literal of the source such as [0.3] is the number [3/10]
    rounded once, which is what dividing the two (exactly representable)
    integers yields. *)
Definition decimal `{Arith F} (n d : Z) : F := fdiv (of_int n) (of_int d).

(** Python's builtin [min(a, b)]: the first argument unless the second is
    strictly smaller. *)
Definition py_min `{Arith F} (a b : F) : F := if flt b a then b else a.

(** [Series.sum()] over a column of point values. NumPy fixes no reduction
    order; the model adds from the first row on, starting from zero. *)
Definition series_sum `{Arith F} (xs : list F) : F :=
  fold_left fadd xs (of_int 0).

(** Integer columns are [int64]: sums wrap around silently. *)
Definition wrap64 (z : Z) : Z := (z + 2 ^ 63) mod 2 ^ 64 - 2 ^ 63.

Definition int_sum (xs : list Z) : Z :=
  fold_left (λ acc x, wrap64 (acc + x)) xs 0.

(** ** binary64 *)

(** Conversion of an integer to the nearest binary64 number (ties to even). *)
Definition float_of_Z (z : Z) : float :=
  SF2Prim (binary_normalize prec emax z 0 false).

#[global] Instance binary64 : Arith float := {
  of_int := float_of_Z;
  fadd := PrimFloat.add;
  fmul := PrimFloat.mul;
  fdiv := PrimFloat.div;
  flt := PrimFloat.ltb;
  feq := PrimFloat.eqb
}.

(** ** Exact rationals *)

(** [Qdiv] returns 0 on a zero divisor, which Python does not: statements
    read at this instance always assume the divisors are not zero. *)
#[global] Instance exact : Arith Q := {
  of_int := inject_Z;
  fadd := Qplus;
  fmul := Qmult;
  fdiv := Qdiv;
  flt := λ x y, negb (Qle_bool y x);
  feq := Qeq_bool
}.

(* ================================================================== *)
(** * Tables *)
(* ================================================================== *)

(** A timestamp, as [datetime(year, month, day, hour, minute, second)]. *)
Record datetime : Type := mk_datetime {
  year : Z; month : Z; day : Z; hour : Z; minute : Z; second : Z
}.

#[global] Instance datetime_eq_dec : EqDecision datetime.
Proof. solve_decision. Defined.

Definition lex (c d : comparison) : comparison :=
  match c with Eq => d | _ => c end.

Definition dt_compare (a b : datetime) : comparison :=
  lex (year a ?= year b)
   (lex (month a ?= month b)
     (lex (day a ?= day b)
       (lex (hour a ?= hour b)
         (lex (minute a ?= minute b) (second a ?= second b))))).

Definition dt_leb (a b : datetime) : bool :=
  match dt_compare a b with Gt => false | _ => true end.

(** [Series.dt.normalize()]: the time of day is set to midnight. *)
Definition normalize (t : datetime) : datetime :=
  mk_datetime (year t) (month t) (day t) 0 0 0.

(** A cell of the ['Datetime'] column: the text read from the file, a parsed
    timestamp, or the missing value [NaT]. *)
Inductive cell : Type :=
  | Text (s : string)
  | Time (t : datetime)
  | NaT.

#[global] Instance cell_eq_dec : EqDecision cell.
Proof. solve_decision. Defined.

(** A row of an activity table: ['User Id'], the measure (['Amount'] or
    ['Games Played'], integers as in the documented format) and the
    ['Datetime'] cell. *)
Record row : Type := mk_row {
  user_id : Z; measure : Z; datetime_cell : cell
}.

#[global] Instance row_eq_dec : EqDecision row.
Proof. solve_decision. Defined.

(** A data frame: the column labels of the file and its rows.  A frame whose
    labels lack ['Datetime'] carries [NaT] in the cells nobody reads. *)
Record table : Type := mk_table {
  columns : list string; rows : list row
}.

#[global] Instance table_eq_dec : EqDecision table.
Proof. solve_decision. Defined.

Definition isna (c : cell) : bool :=
  match c with NaT => true | _ => false end.

(** [column >= d] and [column <= d] on a datetime column; a missing value
    compares false. *)
Definition cell_ge (c : cell) (d : datetime) : bool :=
  match c with Time t => dt_leb d t | _ => false end.

Definition cell_le (c : cell) (d : datetime) : bool :=
  match c with Time t => dt_leb t d | _ => false end.

(* ================================================================== *)
(** * Aggregation and scoring: [calculate_loyalty_points] *)
(* ================================================================== *)

(** The sidebar parameters. Sliders given float bounds return floats, the
    daily bonus slider and the two [number_input]s return integers. *)
Record params (F : Type) : Type := mk_params {
  deposit_multiplier : F;
  withdrawal_multiplier : F;
  frequency_multiplier : F;
  gameplay_multiplier : F;
  daily_bonus : Z;
  deposit_cap : Z;
  bonus_pool : Z
}.
Arguments mk_params {F}.
Arguments deposit_multiplier {F}.
Arguments withdrawal_multiplier {F}.
Arguments frequency_multiplier {F}.
Arguments gameplay_multiplier {F}.
Arguments daily_bonus {F}.
Arguments deposit_cap {F}.
Arguments bonus_pool {F}.

(** The dictionary [points] returned for one user. *)
Record points (F : Type) : Type := mk_points {
  p_user_id : Z;
  total_points : F;
  from_deposits : F;
  from_withdrawals : F;
  from_frequency : F;
  from_games : F;
  from_daily_bonus : Z;
  total_deposits : Z;
  total_withdrawals : Z;
  games_played : Z;
  num_deposits : Z;
  num_withdrawals : Z;
  distinct_days : Z
}.
Arguments mk_points {F}.
Arguments p_user_id {F}.
Arguments total_points {F}.
Arguments from_deposits {F}.
Arguments from_withdrawals {F}.
Arguments from_frequency {F}.
Arguments from_games {F}.
Arguments from_daily_bonus {F}.
Arguments total_deposits {F}.
Arguments total_withdrawals {F}.
Arguments games_played {F}.
Arguments num_deposits {F}.
Arguments num_withdrawals {F}.
Arguments distinct_days {F}.

(** The boolean mask of the three filters. *)
Definition mask (uid : Z) (start_date end_date : datetime) (r : row) : bool :=
  (user_id r =? uid)
  && cell_ge (datetime_cell r) start_date
  && cell_le (datetime_cell r) end_date.

(** [df[mask]] *)
Definition select (df : table) (uid : Z) (start_date end_date : datetime)
  : list row :=
  filter (λ r, mask uid start_date end_date r = true) (rows df).

(** The days of a column of timestamps, for [unique()]. *)
Definition normalized_days (rs : list row) : list datetime :=
  omap (λ r, match datetime_cell r with
             | Time t => Some (normalize t)
             | _ => None
             end) rs.

Section Scoring.
Context {F : Type} `{Arith F}.
Variable cfg : params F.
(** The three module-level frames the function reads. *)
Variables deposit withdrawal gameplays : table.

Definition calculate_loyalty_points (uid : Z) (start_date end_date : datetime)
  : points F :=
  let user_deposits := select deposit uid start_date end_date in
  let user_withdrawals := select withdrawal uid start_date end_date in
  let user_games := select gameplays uid start_date end_date in
  let deposit_amt := int_sum (measure <$> user_deposits) in
  let withdrawal_amt := int_sum (measure <$> user_withdrawals) in
  let n_deposits := Z.of_nat (length user_deposits) in
  let n_withdrawals := Z.of_nat (length user_withdrawals) in
  let games := int_sum (measure <$> user_games) in
  let days := Z.of_nat (length (remove_dups (normalized_days user_games))) in
  let deposit_points := fmul (deposit_multiplier cfg) (of_int deposit_amt) in
  let deposit_points :=
    if 0 <? deposit_cap cfg
    then py_min deposit_points (of_int (deposit_cap cfg))
    else deposit_points in
  let withdrawal_points :=
    fmul (withdrawal_multiplier cfg) (of_int withdrawal_amt) in
  let frequency_points :=
    fmul (frequency_multiplier cfg)
         (of_int (Z.max (n_deposits - n_withdrawals) 0)) in
  let game_points := fmul (gameplay_multiplier cfg) (of_int games) in
  let daily_bonus_points := daily_bonus cfg * days in
  let total :=
    fadd (fadd (fadd (fadd deposit_points withdrawal_points)
                     frequency_points) game_points)
         (of_int daily_bonus_points) in
  {| p_user_id := uid;
     total_points := total;
     from_deposits := deposit_points;
     from_withdrawals := withdrawal_points;
     from_frequency := frequency_points;
     from_games := game_points;
     from_daily_bonus := daily_bonus_points;
     total_deposits := deposit_amt;
     total_withdrawals := withdrawal_amt;
     games_played := games;
     num_deposits := n_deposits;
     num_withdrawals := n_withdrawals;
     distinct_days := days |}.
End Scoring.

(* ================================================================== *)
(** * Ranking *)
(* ================================================================== *)

(** The analysis window of the month selected in the sidebar. *)
Inductive month_choice : Type := October_2022 | November_2022 | December_2022.

Definition start_date (m : month_choice) : datetime :=
  match m with
  | October_2022 => mk_datetime 2022 10 1 0 0 0
  | November_2022 => mk_datetime 2022 11 1 0 0 0
  | December_2022 => mk_datetime 2022 12 1 0 0 0
  end.

Definition end_date (m : month_choice) : datetime :=
  match m with
  | October_2022 => mk_datetime 2022 10 31 23 59 59
  | November_2022 => mk_datetime 2022 11 30 23 59 59
  | December_2022 => mk_datetime 2022 12 31 23 59 59
  end.

(** [set(deposit['User Id']).union(set(withdrawal['User Id']))
      .union(set(gameplays['User Id']))] *)
Definition user_id_set (deposit withdrawal gameplays : table) : gset Z :=
  list_to_set (user_id <$> rows deposit)
  ∪ list_to_set (user_id <$> rows withdrawal)
  ∪ list_to_set (user_id <$> rows gameplays).

(** [list(...)] of that set. Python enumerates a set in hash order, the
    model in the order of [elements]; no statement below depends on it. *)
Definition all_users (deposit withdrawal gameplays : table) : list Z :=
  elements (user_id_set deposit withdrawal gameplays).

(** A row of [monthly_rankings]: the points of a user and the ['Rank']. *)
Record ranked (F : Type) : Type := mk_ranked {
  score : points F;
  rank : Z
}.
Arguments mk_ranked {F}.
Arguments score {F}.
Arguments rank {F}.

Section Ranking.
Context {F : Type} `{Arith F}.

(** [a] is placed strictly before [b] by
    [sort_values(['Total Points', 'Games Played'], ascending=[False, False])].
    pandas puts NaN keys last; with finite parameters and integer measures
    no total is NaN, and the statements about the order are about such
    runs. *)
Definition before (a b : points F) : bool :=
  flt (total_points b) (total_points a)
  || (feq (total_points a) (total_points b)
      && (games_played b <? games_played a)).

(** The sort is stable: rows with equal keys keep the order of the frame.
    Insertion below the rows that come strictly before, from the last row
    up, yields that unique order. *)
Fixpoint insert_row (x : points F) (l : list (points F)) : list (points F) :=
  match l with
  | [] => [x]
  | y :: l' => if before y x then y :: insert_row x l' else x :: l
  end.

Definition sort_values (l : list (points F)) : list (points F) :=
  foldr insert_row [] l.

(** [df['Rank'] = range(1, len(df) + 1)] *)
Definition assign_rank (l : list (points F)) : list (ranked F) :=
  zip_with mk_ranked l (Z.of_nat <$> seq 1 (length l)).

Variable cfg : params F.
Variables deposit withdrawal gameplays : table.
Variable m : month_choice.

(** [results] *)
Definition points_df : list (points F) :=
  (λ uid, calculate_loyalty_points cfg deposit withdrawal gameplays
            uid (start_date m) (end_date m))
  <$> all_users deposit withdrawal gameplays.

Definition monthly_rankings : list (ranked F) :=
  assign_rank (sort_values points_df).
End Ranking.

(* ================================================================== *)
(** * Bonus allocation *)
(* ================================================================== *)

(** A row of [top_50] once the three allocation columns are set. *)
Record allocation (F : Type) : Type := mk_allocation {
  player : ranked F;
  proportional : F;
  tiered : F;
  hybrid : F
}.
Arguments mk_allocation {F}.
Arguments player {F}.
Arguments proportional {F}.
Arguments tiered {F}.
Arguments hybrid {F}.

(** The size of the subset the pool is shared among: [head(50)]. *)
Definition top_k : nat := 50.

Section Allocation.
Context {F : Type} `{Arith F}.
Variable pool : Z.

(** [top_50['Total Points'] / top_50['Total Points'].sum() * bonus_pool] *)
Definition proportional_column (top : list (ranked F)) : list F :=
  let total := series_sum (total_points ∘ score <$> top) in
  (λ r, fmul (fdiv (total_points (score r)) total) (of_int pool)) <$> top.

(** The column starts at 0 and receives three masked assignments. *)
Definition tiered_amount (rk : Z) : F :=
  let t := of_int 0 in
  let t := if rk <=? 10
           then fdiv (fmul (of_int pool) (decimal 3 10)) (of_int 10) else t in
  let t := if (10 <? rk) && (rk <=? 30)
           then fdiv (fmul (of_int pool) (decimal 4 10)) (of_int 20) else t in
  let t := if 30 <? rk
           then fdiv (fmul (of_int pool) (decimal 3 10)) (of_int 20) else t in
  t.

Definition tiered_column (top : list (ranked F)) : list F :=
  tiered_amount ∘ rank <$> top.

Definition points_weight : F := decimal 5 10.
Definition games_weight : F := decimal 3 10.
Definition deposit_weight : F := decimal 2 10.

Definition hybrid_column (top : list (ranked F)) : list F :=
  let points_total := series_sum (total_points ∘ score <$> top) in
  let games_total := int_sum (games_played ∘ score <$> top) in
  let deposits_total := int_sum (total_deposits ∘ score <$> top) in
  (λ r,
     fmul
       (fadd
          (fadd
             (fdiv (fmul points_weight (total_points (score r)))
                   points_total)
             (fdiv (fmul games_weight (of_int (games_played (score r))))
                   (of_int games_total)))
          (fdiv (fmul deposit_weight (of_int (total_deposits (score r))))
                (of_int deposits_total)))
       (of_int pool)) <$> top.

(** [top_50] with its three columns. *)
Definition allocate (rankings : list (ranked F)) : list (allocation F) :=
  let top := take top_k rankings in
  zip_with (λ r '(p, t, h), mk_allocation r p t h) top
    (zip (zip (proportional_column top) (tiered_column top))
         (hybrid_column top)).
End Allocation.

(** [top_50] of one run of the page. *)
Definition top_50 {F : Type} `{Arith F} (cfg : params F)
    (deposit withdrawal gameplays : table) (m : month_choice)
  : list (allocation F) :=
  allocate (bonus_pool cfg) (monthly_rankings cfg deposit withdrawal gameplays m).

(* ================================================================== *)
(** * The validator: [process_data] *)
(* ================================================================== *)

(** What the page shows: [st.error(f"{name} data must contain a 'Datetime'
    column")] and [st.warning(f"Removed {invalid_dates} rows with invalid
    dates from {name} data")]. *)
Inductive message : Type :=
  | st_error (name : string)
  | st_warning (invalid_dates : Z) (name : string).

#[global] Instance message_eq_dec : EqDecision message.
Proof. solve_decision. Defined.

(** Data frames are objects: a variable holds a reference, and an assignment
    to a column is seen through every reference to the frame. *)
Definition loc : Type := positive.

Record state : Type := mk_state {
  heap : gmap positive table;
  log : list message
}.

(** Computations that read and update the store and write to the page. *)
Definition M (A : Type) : Type := state → A * state.

Definition ret {A : Type} (x : A) : M A := λ s, (x, s).

Definition bind {A B : Type} (c : M A) (k : A → M B) : M B :=
  λ s, let '(x, s') := c s in k x s'.

Notation "'do' x <- c ; k" := (bind c (λ x, k))
  (at level 10, x name, c at level 100, k at level 200).

Definition emit (msg : message) : M unit :=
  λ s, (tt, mk_state (heap s) (log s ++ [msg])).

Definition assign (l : loc) (df : table) : M unit :=
  λ s, (tt, mk_state (<[l := df]> (heap s)) (log s)).

(** The object behind a reference (a reference to no object does not occur
    in Python; the model reads it as an absent frame). *)
Definition lookup_frame (l : loc) : M (option table) :=
  λ s, (heap s !! l, s).

Definition deref (df : option loc) : M (option table) :=
  match df with
  | None => ret None
  | Some l => lookup_frame l
  end.

(** A new object, at a reference no object has yet. *)
Definition alloc (df : table) : M loc :=
  λ s, let l := fresh (dom (heap s)) in
       (l, mk_state (<[l := df]> (heap s)) (log s)).

Section Validator.
(** [pd.to_datetime(text, format='%d-%m-%Y %H:%M', errors='coerce')] on one
    text: the timestamp, or nothing where pandas yields [NaT]. *)
Variable strptime : string → option datetime.

Definition to_datetime (c : cell) : cell :=
  match c with
  | Text s => match strptime s with Some t => Time t | None => NaT end
  | Time t => Time t
  | NaT => NaT
  end.

Definition convert_row (r : row) : row :=
  mk_row (user_id r) (measure r) (to_datetime (datetime_cell r)).

(** The frame once [df['Datetime'] = pd.to_datetime(df['Datetime'], ...)]
    has run. *)
Definition converted (df : table) : table :=
  mk_table (columns df) (convert_row <$> rows df).

(** [df.dropna(subset=['Datetime'])]: a new frame. *)
Definition dropna (df : table) : table :=
  mk_table (columns df)
           (filter (λ r, isna (datetime_cell r) = false) (rows df)).

Definition invalid_count (df : table) : Z :=
  Z.of_nat (length (filter (λ r, isna (datetime_cell r) = true) (rows df))).

Definition process_data (df : option loc) (name : string) : M (option loc) :=
  match df with
  | None => ret None
  | Some l =>
    do found <- lookup_frame l ;
    match found with
    | None => ret None
    | Some frame =>
      if bool_decide ("Datetime" ∈ columns frame) then
        do _ <- assign l (converted frame) ;
        let invalid_dates := invalid_count (converted frame) in
        if 0 <? invalid_dates then
          do _ <- emit (st_warning invalid_dates name) ;
          do l' <- alloc (dropna (converted frame)) ;
          ret (Some l')
        else ret (Some l)
      else
        do _ <- emit (st_error name) ;
        ret None
    end
  end.

(** The three calls of the module body. *)
Definition process_files (deposit_file withdrawal_file gameplay_file
    : option loc) : M (option loc * option loc * option loc) :=
  do deposit <- process_data deposit_file "Deposit" ;
  do withdrawal <- process_data withdrawal_file "Withdrawal" ;
  do gameplays <- process_data gameplay_file "Gameplay" ;
  ret (deposit, withdrawal, gameplays).

(** The module body below the sidebar, from the three loaded frames on:
    the rankings and [top_50], or nothing when a frame is missing. *)
Definition analysis {F : Type} `{Arith F} (cfg : params F) (m : month_choice)
    (deposit_file withdrawal_file gameplay_file : option loc)
  : M (option (list (ranked F) * list (allocation F))) :=
  do frames <- process_files deposit_file withdrawal_file gameplay_file ;
  let '(deposit, withdrawal, gameplays) := frames in
  do d <- deref deposit ;
  do w <- deref withdrawal ;
  do g <- deref gameplays ;
  match d, w, g with
  | Some d, Some w, Some g =>
    ret (Some (monthly_rankings cfg d w g m, top_50 cfg d w g m))
  | _, _, _ => ret None
  end.
End Validator.

(* ================================================================== *)
(** * The dashboard *)
(* ================================================================== *)

(** Subtraction, which only the percentages of the breakdown use. *)
Class ArithSub (F : Type) : Type := fsub : F → F → F.

#[global] Instance binary64_sub : ArithSub float := PrimFloat.sub.

(** A row of [top_players]: a ranked user with ['Deposit %'],
    ['Gameplay %'] and ['Other %']. *)
Record breakdown (F : Type) : Type := mk_breakdown {
  shown : ranked F;
  deposit_pct : F;
  gameplay_pct : F;
  other_pct : F
}.
Arguments mk_breakdown {F}.
Arguments shown {F}.
Arguments deposit_pct {F}.
Arguments gameplay_pct {F}.
Arguments other_pct {F}.

Section Dashboard.
Context {F : Type} `{Arith F} `{ArithSub F}.



(** One row of the points breakdown. *)
Definition breakdown_row (r : ranked F) : breakdown F :=
  let p := score r in
  let deposit_share :=
    fmul (fdiv (from_deposits p) (total_points p)) (of_int 100) in
  let gameplay_share :=
    fmul (fdiv (from_games p) (total_points p)) (of_int 100) in
  mk_breakdown r deposit_share gameplay_share
    (fsub (fsub (of_int 100) deposit_share) gameplay_share).

(** [top_players = monthly_rankings.head(10).copy()] with its three
    percentage columns. *)
Definition top_players (rankings : list (ranked F)) : list (breakdown F) :=
  breakdown_row <$> take 10 rankings.
End Dashboard.

(** The sidebar: a slider or a number input returns a value between its
    [min_value] and its [max_value]. *)
Definition between (lo hi x : float) : Prop :=
  PrimFloat.leb lo x = true ∧ PrimFloat.leb x hi = true.

Definition sidebar_params (cfg : params float) : Prop :=
  between (of_int 0) (decimal 1 10) (deposit_multiplier cfg)
  ∧ between (decimal (-1) 100) (decimal 1 100) (withdrawal_multiplier cfg)
  ∧ between (of_int 0) (decimal 1 100) (frequency_multiplier cfg)
  ∧ between (of_int 0) (of_int 1) (gameplay_multiplier cfg)
  ∧ 0 ≤ daily_bonus cfg ≤ 10
  ∧ 0 ≤ deposit_cap cfg ≤ 100000
  ∧ 1000 ≤ bonus_pool cfg ≤ 1000000.

(* ================================================================== *)
(** * Concrete inputs *)
(* ================================================================== *)

(** A reader of the pattern [%d-%m-%Y %H:%M] for texts written with all
    digits, [DD-MM-YYYY HH:MM], as the page documents the format; pandas
    reads these texts to the same timestamps.  The general statements about
    the validator hold for any reader. *)
Definition digit (a : Ascii.ascii) : option Z :=
  let n := Z.of_nat (Ascii.nat_of_ascii a) in
  if (48 <=? n) && (n <=? 57) then Some (n - 48) else None.

Definition is_leap (y : Z) : bool :=
  ((y mod 4 =? 0) && negb (y mod 100 =? 0)) || (y mod 400 =? 0).

Definition days_in_month (y m : Z) : Z :=
  if m =? 2 then (if is_leap y then 29 else 28)
  else if (m =? 4) || (m =? 6) || (m =? 9) || (m =? 11) then 30
  else 31.

Definition strptime_digits (s : string) : option datetime :=
  match String.list_ascii_of_string s with
  | [d1; d2; "-"; m1; m2; "-"; y1; y2; y3; y4; " "; h1; h2; ":"; n1; n2]%char =>
    d1 ← digit d1; d2 ← digit d2; m1 ← digit m1; m2 ← digit m2;
    y1 ← digit y1; y2 ← digit y2; y3 ← digit y3; y4 ← digit y4;
    h1 ← digit h1; h2 ← digit h2; n1 ← digit n1; n2 ← digit n2;
    let d := 10 * d1 + d2 in
    let mo := 10 * m1 + m2 in
    let y := 1000 * y1 + 100 * y2 + 10 * y3 + y4 in
    let h := 10 * h1 + h2 in
    let mi := 10 * n1 + n2 in
    if (1 <=? mo) && (mo <=? 12) && (1 <=? d) && (d <=? days_in_month y mo)
       && (h <=? 23) && (mi <=? 59)
    then Some (mk_datetime y mo d h mi 0)
    else None
  | _ => None
  end.

(** [pd.DataFrame({'User Id': ..., 'Amount': ..., 'Datetime': ...})] *)
Definition data_frame (measure_label : string) (ids values : list Z)
    (stamps : list string) : table :=
  mk_table ["User Id"; measure_label; "Datetime"]
    (zip_with (λ '(u, v) s, mk_row u v (Text s)) (zip ids values) stamps).

(** [load_sample_data] *)
Definition sample_deposit : table :=
  data_frame "Amount"
    [101; 101; 102; 103; 104; 105; 101; 106; 102; 107]
    [5000; 3000; 7000; 2000; 10000; 4000; 6000; 8000; 3000; 5000]
    ["01-10-2022 10:00"; "05-10-2022 15:30"; "02-10-2022 11:15";
     "03-10-2022 09:45"; "10-10-2022 14:00"; "15-10-2022 16:30";
     "20-10-2022 10:45"; "25-10-2022 13:15"; "28-10-2022 17:30";
     "30-10-2022 18:00"].

Definition sample_withdrawal : table :=
  data_frame "Amount"
    [101; 102; 103; 104; 105; 101; 106; 107]
    [2000; 3000; 1000; 5000; 2000; 1000; 4000; 2000]
    ["08-10-2022 11:00"; "12-10-2022 14:30"; "14-10-2022 10:15";
     "18-10-2022 16:45"; "22-10-2022 12:00"; "25-10-2022 09:30";
     "27-10-2022 15:15"; "29-10-2022 17:00"].

Definition sample_gameplay : table :=
  data_frame "Games Played"
    [101; 101; 102; 103; 104; 105; 106; 107; 101; 102; 103; 104; 105; 106; 107]
    [15; 20; 30; 10; 25; 18; 22; 12; 25; 35; 15; 30; 20; 28; 18]
    ["01-10-2022 10:30"; "02-10-2022 11:00"; "03-10-2022 09:30";
     "04-10-2022 14:00"; "05-10-2022 16:30"; "06-10-2022 12:45";
     "07-10-2022 10:15"; "08-10-2022 15:30"; "09-10-2022 11:00";
     "10-10-2022 14:30"; "11-10-2022 09:00"; "12-10-2022 16:00";
     "13-10-2022 13:45"; "14-10-2022 10:30"; "15-10-2022 17:00"].

(** The store after [load_sample_data]: three frames, nothing shown yet. *)
Definition sample_state : state :=
  mk_state (<[1%positive := sample_deposit]>
            (<[2%positive := sample_withdrawal]>
             (<[3%positive := sample_gameplay]> ∅))) [].

(** The values the sidebar starts with. *)
Definition default_params {F : Type} `{Arith F} : params F :=
  mk_params (decimal 1 100) (decimal 5 1000) (decimal 1 1000) (decimal 2 10)
            0 0 50000.

(** A frame as [process_data] returns it. *)
Definition normalized (df : table) : table :=
  dropna (converted strptime_digits df).

(** The sample frames as [process_data] returns them. *)
Definition october_deposit : table := normalized sample_deposit.
Definition october_withdrawal : table := normalized sample_withdrawal.
Definition october_gameplay : table := normalized sample_gameplay.

Definition no_rows (measure_label : string) : table :=
  normalized (data_frame measure_label [] [] []).

(** User 1 deposits in October, user 2 only in November. *)
Definition guest_deposit : table :=
  normalized (data_frame "Amount" [1; 2] [100; 100]
                ["05-10-2022 10:00"; "05-11-2022 10:00"]).

(** Two users with the same activity. *)
Definition twin_gameplay : table :=
  normalized (data_frame "Games Played" [1; 2] [10; 10]
                ["01-10-2022 10:00"; "02-10-2022 10:00"]).

(** User 1 plays 25 games and deposits; user 2 only withdraws. With a
    negative withdrawal multiplier (the slider goes down to -0.01) and
    deposits left out of the score, their points are 5 and -5. *)
Definition offsetting_deposit : table :=
  normalized (data_frame "Amount" [1] [100] ["03-10-2022 10:00"]).

Definition offsetting_withdrawal : table :=
  normalized (data_frame "Amount" [2] [500] ["04-10-2022 10:00"]).

Definition offsetting_gameplay : table :=
  normalized (data_frame "Games Played" [1] [25] ["05-10-2022 10:00"]).

Definition offsetting_params {F : Type} `{Arith F} : params F :=
  mk_params (of_int 0) (decimal (-1) 100) (of_int 0) (decimal 2 10)
            0 0 50000.



(** User 1 alone, with the October deposit of [guest_deposit]. *)
Definition solo_deposit : table :=
  normalized (data_frame "Amount" [1] [100] ["05-10-2022 10:00"]).

(** A deposit file with a date that does not exist. *)
Definition messy_deposit : table :=
  data_frame "Amount" [1; 2] [100; 200]
    ["05-10-2022 10:00"; "31-02-2022 10:00"].

Definition messy_state : state :=
  mk_state (<[1%positive := messy_deposit]> ∅) [].

(* ================================================================== *)
(** * Vocabulary of the properties *)
(* ================================================================== *)

(** [t] lies in the window, both ends included. *)
Definition in_window (start_date end_date t : datetime) : Prop :=
  dt_compare start_date t ≠ Gt ∧ dt_compare t end_date ≠ Gt.

(** A row counts for user [uid] in the window. *)
Definition qualifies (uid : Z) (start_date end_date : datetime) (r : row)
  : Prop :=
  user_id r = uid
  ∧ ∃ t, datetime_cell r = Time t ∧ in_window start_date end_date t.

(** The calendar month a choice of the sidebar stands for. *)
Definition month_number (m : month_choice) : Z :=
  match m with October_2022 => 10 | November_2022 => 11 | December_2022 => 12
  end.

Definition last_day (m : month_choice) : Z :=
  match m with October_2022 => 31 | November_2022 => 30 | December_2022 => 31
  end.

(** A time of day as a clock shows it. *)
Definition clock_time (t : datetime) : Prop :=
  0 ≤ hour t ≤ 23 ∧ 0 ≤ minute t ≤ 59 ∧ 0 ≤ second t ≤ 59.

(** Every timestamp of the frame is parsed. *)
Definition parsed_frame (df : table) : Prop :=
  Forall (λ r, ∃ t, datetime_cell r = Time t) (rows df).

(** The shape of a binary64 number, read off its IEEE 754 description. *)
Definition sf_zero (x : spec_float) : bool :=
  match x with S754_zero _ => true | _ => false end.

Definition sf_finite (x : spec_float) : bool :=
  match x with S754_zero _ | S754_finite _ _ _ => true | _ => false end.

(** The multipliers are finite numbers, as every slider position is. *)
Definition finite_multipliers (cfg : params float) : Prop :=
  is_finite (deposit_multiplier cfg) = true
  ∧ is_finite (withdrawal_multiplier cfg) = true
  ∧ is_finite (frequency_multiplier cfg) = true
  ∧ is_finite (gameplay_multiplier cfg) = true.

(** The users with at least one row inside the window, in any table. *)
Definition has_activity (deposit withdrawal gameplays : table)
    (m : month_choice) (uid : Z) : Prop :=
  ∃ df r, df ∈ [deposit; withdrawal; gameplays] ∧ r ∈ rows df
          ∧ qualifies uid (start_date m) (end_date m) r.

Definition active_users (deposit withdrawal gameplays : table)
    (m : month_choice) : list Z :=
  filter (λ uid, select deposit uid (start_date m) (end_date m) ≠ []
                 ∨ select withdrawal uid (start_date m) (end_date m) ≠ []
                 ∨ select gameplays uid (start_date m) (end_date m) ≠ [])
         (all_users deposit withdrawal gameplays).

(** The values are exactly 1, ..., [n], each once. *)
Definition one_to (n : nat) (ranks : list Z) : Prop :=
  NoDup ranks ∧ ∀ k, k ∈ ranks ↔ 1 ≤ k ≤ Z.of_nat n.

(** The pair (total points, games played) of [a] is lexicographically
    greater than that of [b]. *)
Definition lex_greater {F : Type} `{Arith F} (a b : points F) : Prop :=
  flt (total_points b) (total_points a) = true
  ∨ (feq (total_points a) (total_points b) = true
     ∧ games_played b < games_played a).

(** What the ranking needs of the comparisons [<] and [==]: a total order
    on the numbers that satisfy [ok]. binary64 has them on every number but
    NaN, the rationals everywhere. *)
Class ArithOrder (F : Type) `{Arith F} (ok : F → Prop) : Prop := {
  flt_asym x y : flt x y = true → flt y x = false;
  flt_not_feq x y : flt x y = true → feq x y = false;
  feq_sym x y : feq x y = true → feq y x = true;
  flt_trans x y z : flt x y = true → flt y z = true → flt x z = true;
  feq_trans x y z : feq x y = true → feq y z = true → feq x z = true;
  flt_feq_trans x y z : flt x y = true → feq y z = true → flt x z = true;
  feq_flt_trans x y z : feq x y = true → flt y z = true → flt x z = true;
  trichotomy x y :
    ok x → ok y → flt x y = true ∨ feq x y = true ∨ flt y x = true
}.

(** A row is not placed strictly before an earlier one. *)
Definition not_after {F : Type} `{Arith F} (a b : points F) : Prop :=
  before b a = false.

(** The rank bands of the tiered method. *)
Inductive band : Type := top_10 | next_20 | last_20.

Definition band_of (rk : Z) : band :=
  if rk <=? 10 then top_10 else if rk <=? 30 then next_20 else last_20.


(** The sum of integers without wrap-around. *)
Definition plain_sum (xs : list Z) : Z := foldr Z.add 0 xs.


(* ================================================================== *)
(** * Properties *)
(* ================================================================== *)

(** ** binary64 facts *)

Lemma SFeqb_refl x :
  SFeqb x x = match x with S754_nan => false | _ => true end.
Proof.
  destruct x as [[]|[]| |[] m e]; try done;
    unfold SFeqb, SFcompare;
    by rewrite Z.compare_refl, Pos.compare_cont_refl.
Qed.

Lemma is_nan_shape x :
  is_nan x = match Prim2SF x with S754_nan => true | _ => false end.
Proof.
  unfold is_nan. rewrite FloatAxioms.eqb_spec, SFeqb_refl.
  by destruct (Prim2SF x).
Qed.

Lemma is_finite_shape x : is_finite x = sf_finite (Prim2SF x).
Proof.
  unfold is_finite, is_infinity. rewrite is_nan_shape.
  rewrite FloatAxioms.eqb_spec, abs_spec.
  change (Prim2SF infinity) with (S754_infinity false).
  by destruct (Prim2SF x) as [s|s| |s m e].
Qed.

Lemma float_of_Z_uint63 z :
  0 ≤ z < 2 ^ 63 → float_of_Z z = of_uint63 (Uint63.of_Z z).
Proof.
  intros Hz. unfold float_of_Z.
  rewrite <- (SF2Prim_Prim2SF (of_uint63 (Uint63.of_Z z))).
  rewrite of_uint63_spec, Uint63.of_Z_spec, Z.mod_small; [done|].
  exact Hz.
Qed.

Lemma Prim2SF_float_of_Z z :
  0 ≤ z < 2 ^ 63 →
  Prim2SF (float_of_Z z) = binary_normalize prec emax z 0 false.
Proof.
  intros Hz. rewrite float_of_Z_uint63 by done.
  rewrite of_uint63_spec, Uint63.of_Z_spec, Z.mod_small; [done|exact Hz].
Qed.

Lemma binary_round_aux_sign sx mx ex lx :
  match binary_round_aux prec emax sx mx ex lx with
  | S754_zero s | S754_infinity s | S754_finite s _ _ => s = sx
  | S754_nan => True
  end.
Proof.
  unfold binary_round_aux.
  destruct (shr_fexp prec emax mx ex lx) as [mrs' e'].
  destruct (shr_fexp _ _ _ e' loc_Exact) as [mrs'' e''].
  destruct (shr_m mrs''); [done| |done].
  by destruct (_ <=? _)%Z.
Qed.

(** A non-negative integer is never below a zero. *)
Lemma float_of_Z_not_below_zero z x :
  0 ≤ z < 2 ^ 63 → sf_zero (Prim2SF x) = true →
  PrimFloat.ltb (float_of_Z z) x = false.
Proof.
  intros Hz Hx. rewrite ltb_spec, Prim2SF_float_of_Z by done.
  destruct (Prim2SF x) as [s| | |]; try done.
  destruct z as [|p|p]; [done| |lia].
  unfold binary_normalize, binary_round.
  destruct (shl_align _ _ _) as [mz ez].
  pose proof (binary_round_aux_sign false (Z.pos mz) ez loc_Exact) as Hs.
  destruct (binary_round_aux _ _ _ _ _ _) as [s'|s'| |s' m' e']; subst; done.
Qed.

Lemma mul_finite_zero m x :
  is_finite m = true → sf_zero (Prim2SF x) = true →
  sf_zero (Prim2SF (m * x)) = true.
Proof.
  rewrite is_finite_shape, mul_spec.
  destruct (Prim2SF m), (Prim2SF x); done.
Qed.

Lemma add_zero_zero x y :
  sf_zero (Prim2SF x) = true → sf_zero (Prim2SF y) = true →
  sf_zero (Prim2SF (x + y)) = true.
Proof.
  rewrite add_spec.
  destruct (Prim2SF x) as [[]| | |], (Prim2SF y) as [[]| | |]; done.
Qed.

Lemma zero_eqb x y :
  sf_zero (Prim2SF x) = true → sf_zero (Prim2SF y) = true →
  PrimFloat.eqb x y = true.
Proof.
  rewrite FloatAxioms.eqb_spec.
  destruct (Prim2SF x), (Prim2SF y); done.
Qed.

Lemma float_of_Z_0 : sf_zero (Prim2SF (float_of_Z 0)) = true.
Proof. reflexivity. Qed.

Lemma eqb_zero_shape x :
  PrimFloat.eqb x (float_of_Z 0) = true → sf_zero (Prim2SF x) = true.
Proof.
  rewrite FloatAxioms.eqb_spec.
  change (Prim2SF (float_of_Z 0)) with (S754_zero false).
  by destruct (Prim2SF x) as [ | [] | | [] ].
Qed.

(** Division by a zero never yields a finite number, and 0/0 is NaN. *)
Lemma div_zero_not_finite x y :
  sf_zero (Prim2SF y) = true → is_finite (x / y) = false.
Proof.
  rewrite is_finite_shape, div_spec.
  by destruct (Prim2SF x), (Prim2SF y).
Qed.

Lemma div_zero_zero_nan x y :
  sf_zero (Prim2SF x) = true → sf_zero (Prim2SF y) = true →
  is_nan (x / y) = true.
Proof.
  rewrite is_nan_shape, div_spec.
  by destruct (Prim2SF x), (Prim2SF y).
Qed.

(** NaN and the infinities are absorbing for sums and products. *)
Lemma add_not_finite_l x y : is_finite x = false → is_finite (x + y) = false.
Proof.
  rewrite !is_finite_shape, add_spec.
  by destruct (Prim2SF x) as [ |[]| | ], (Prim2SF y) as [ |[]| | ].
Qed.

Lemma add_not_finite_r x y : is_finite y = false → is_finite (x + y) = false.
Proof.
  rewrite !is_finite_shape, add_spec.
  by destruct (Prim2SF x) as [ |[]| | ], (Prim2SF y) as [ |[]| | ].
Qed.

Lemma mul_not_finite_l x y : is_finite x = false → is_finite (x * y) = false.
Proof.
  rewrite !is_finite_shape, mul_spec.
  by destruct (Prim2SF x), (Prim2SF y).
Qed.

Lemma mul_nan_l x y : is_nan x = true → is_nan (x * y) = true.
Proof.
  rewrite !is_nan_shape, mul_spec.
  by destruct (Prim2SF x), (Prim2SF y).
Qed.

(** ** Timestamps *)

Lemma dt_compare_refl t : dt_compare t t = Eq.
Proof. unfold dt_compare. by rewrite !Z.compare_refl. Qed.

Lemma dt_leb_in_window start_date end_date t :
  dt_leb start_date t && dt_leb t end_date = true
  ↔ in_window start_date end_date t.
Proof.
  unfold in_window, dt_leb. rewrite andb_true_iff.
  destruct (dt_compare start_date t), (dt_compare t end_date);
    intuition congruence.
Qed.

(** ** Selection of the rows of a user *)

Lemma mask_qualifies uid start_date end_date r :
  mask uid start_date end_date r = true ↔ qualifies uid start_date end_date r.
Proof.
  unfold mask, qualifies, cell_ge, cell_le.
  rewrite <- andb_assoc, andb_true_iff, Z.eqb_eq.
  destruct (datetime_cell r) as [txt|t|].
  - split; [intros [_ [=]] | intros (_ & t & [=] & _)].
  - rewrite dt_leb_in_window. split; [intros [-> Hin]; eauto|].
    by intros (-> & t' & [= <-] & Hin).
  - split; [intros [_ [=]] | intros (_ & t & [=] & _)].
Qed.

Lemma elem_of_select df uid start_date end_date r :
  r ∈ select df uid start_date end_date
  ↔ r ∈ rows df ∧ qualifies uid start_date end_date r.
Proof.
  unfold select. rewrite list_elem_of_filter, mask_qualifies. tauto.
Qed.

Lemma select_nil df uid start_date end_date :
  (∀ r, r ∈ rows df → ¬ qualifies uid start_date end_date r) →
  select df uid start_date end_date = [].
Proof.
  intros Hno. apply elem_of_nil_inv. intros r.
  rewrite elem_of_select. intros [Hr Hq]. by apply (Hno r).
Qed.

(* ================================================================== *)
(** ** The scoring formula *)
(* ================================================================== *)

(** C1. For every user, parameter configuration and window, in any
    arithmetic: the deposit points are the multiplier times the total
    deposit amount, clamped by [min(., cap)] exactly when the cap is
    positive; withdrawal, frequency, gameplay and daily bonus points are
    their multiplier times the total withdrawal amount, the positive part of
    deposits minus withdrawals, the games played and the distinct days; and
    the total is the sum of the five components, added in the order of the
    source. *)
Theorem calculate_loyalty_points_formula {F : Type} `{Arith F}
    (cfg : params F) (deposit withdrawal gameplays : table) (uid : Z)
    (start_date end_date : datetime) :
  let p := calculate_loyalty_points cfg deposit withdrawal gameplays uid
             start_date end_date in
  let uncapped := fmul (deposit_multiplier cfg) (of_int (total_deposits p)) in
  from_deposits p
    = (if 0 <? deposit_cap cfg
       then py_min uncapped (of_int (deposit_cap cfg))
       else uncapped)
  ∧ from_withdrawals p
    = fmul (withdrawal_multiplier cfg) (of_int (total_withdrawals p))
  ∧ from_frequency p
    = fmul (frequency_multiplier cfg)
           (of_int (Z.max (num_deposits p - num_withdrawals p) 0))
  ∧ from_games p = fmul (gameplay_multiplier cfg) (of_int (games_played p))
  ∧ from_daily_bonus p = daily_bonus cfg * distinct_days p
  ∧ total_points p
    = fadd (fadd (fadd (fadd (from_deposits p) (from_withdrawals p))
                       (from_frequency p))
                 (from_games p))
           (of_int (from_daily_bonus p)).
Proof. by repeat split. Qed.

(* ================================================================== *)
(** ** Aggregation over the window *)
(* ================================================================== *)

(** The aggregate fields of a user without a selected row. *)
Lemma no_rows_aggregates {F : Type} `{Arith F}
    (cfg : params F) (deposit withdrawal gameplays : table) (uid : Z)
    (start_date end_date : datetime) :
  select deposit uid start_date end_date = [] →
  select withdrawal uid start_date end_date = [] →
  select gameplays uid start_date end_date = [] →
  calculate_loyalty_points cfg deposit withdrawal gameplays uid
    start_date end_date
  = let zero_deposit_points := fmul (deposit_multiplier cfg) (of_int 0) in
    let deposit_points :=
      if 0 <? deposit_cap cfg
      then py_min zero_deposit_points (of_int (deposit_cap cfg))
      else zero_deposit_points in
    let withdrawal_points := fmul (withdrawal_multiplier cfg) (of_int 0) in
    let frequency_points := fmul (frequency_multiplier cfg) (of_int 0) in
    let game_points := fmul (gameplay_multiplier cfg) (of_int 0) in
    mk_points uid
      (fadd (fadd (fadd (fadd deposit_points withdrawal_points)
                        frequency_points) game_points)
            (of_int (daily_bonus cfg * 0)))
      deposit_points withdrawal_points frequency_points game_points
      (daily_bonus cfg * 0) 0 0 0 0 0 0.
Proof.
  intros Hd Hw Hg. unfold calculate_loyalty_points.
  by rewrite Hd, Hw, Hg.
Qed.

(** C2. For every user and each of the three tables, the rows that enter the
    aggregates are exactly the rows of the table with that user id and a
    timestamp between the start and the end of the window, both ends
    included. A user with no such row in any table has every aggregate field
    at zero and total points [== 0], whatever the daily bonus, the (finite)
    multipliers and the cap are. *)
Theorem aggregation_window_and_zero_activity
    (cfg : params float) (deposit withdrawal gameplays : table) (uid : Z)
    (start_date end_date : datetime) :
  finite_multipliers cfg →
  deposit_cap cfg < 2 ^ 63 →
  let chosen df := select df uid start_date end_date in
  let p := calculate_loyalty_points cfg deposit withdrawal gameplays uid
             start_date end_date in
  (∀ df r, r ∈ chosen df ↔ r ∈ rows df ∧ qualifies uid start_date end_date r)
  ∧ (dt_compare start_date end_date ≠ Gt →
     in_window start_date end_date start_date
     ∧ in_window start_date end_date end_date)
  ∧ ((∀ df r, df ∈ [deposit; withdrawal; gameplays] → r ∈ rows df →
        ¬ qualifies uid start_date end_date r) →
     total_deposits p = 0 ∧ total_withdrawals p = 0
     ∧ num_deposits p = 0 ∧ num_withdrawals p = 0
     ∧ games_played p = 0 ∧ distinct_days p = 0
     ∧ PrimFloat.eqb (total_points p) (of_int 0) = true).
Proof.
  intros (Hdm & Hwm & Hfm & Hgm) Hcap chosen p.
  split; [intros df r; apply elem_of_select|].
  split.
  { intros Hle. unfold in_window. rewrite !dt_compare_refl.
    by repeat split. }
  intros Hno. subst p.
  rewrite no_rows_aggregates
    by (apply select_nil; intros r Hr; eapply Hno; [|done]; set_solver).
  repeat (split; [reflexivity|]). cbn -[float_of_Z Z.pow].
  pose proof float_of_Z_0 as H0.
  assert (sf_zero (Prim2SF (if 0 <? deposit_cap cfg
            then py_min (deposit_multiplier cfg * float_of_Z 0)%float
                        (float_of_Z (deposit_cap cfg))
            else (deposit_multiplier cfg * float_of_Z 0)%float)) = true)
    as Hdp.
  { pose proof (mul_finite_zero _ _ Hdm H0) as Hz.
    destruct (0 <? deposit_cap cfg) eqn:Hpos; [|done].
    unfold py_min; cbn -[float_of_Z Z.pow].
    rewrite float_of_Z_not_below_zero; [done| |done].
    apply Z.ltb_lt in Hpos. lia. }
  rewrite Z.mul_0_r. apply zero_eqb; [|done].
  repeat apply add_zero_zero; try done; by apply mul_finite_zero.
Qed.

(* ================================================================== *)
(** ** Ranks *)
(* ================================================================== *)

Section RankingFacts.
Context {F : Type} `{Arith F}.

Lemma insert_row_perm (x : points F) l : insert_row x l ≡ₚ x :: l.
Proof.
  induction l as [|y l IH]; simpl; [done|].
  destruct (before y x); [|done].
  rewrite IH. apply Permutation_swap.
Qed.

Lemma sort_values_perm (l : list (points F)) : sort_values l ≡ₚ l.
Proof.
  induction l as [|x l IH]; simpl; [done|].
  by rewrite insert_row_perm, IH.
Qed.

Lemma sort_values_length (l : list (points F)) :
  length (sort_values l) = length l.
Proof. by rewrite sort_values_perm. Qed.

Lemma assign_rank_rank (l : list (points F)) :
  rank <$> assign_rank l = Z.of_nat <$> seq 1 (length l).
Proof.
  unfold assign_rank. apply fmap_zip_with_r; [done|].
  by rewrite length_fmap, length_seq.
Qed.

Lemma assign_rank_score (l : list (points F)) :
  score <$> assign_rank l = l.
Proof.
  unfold assign_rank. apply fmap_zip_with_l; [done|].
  by rewrite length_fmap, length_seq.
Qed.

Lemma assign_rank_lookup (l : list (points F)) i x :
  assign_rank l !! i = Some x ↔
  l !! i = Some (score x) ∧ rank x = Z.of_nat (S i).
Proof.
  unfold assign_rank. rewrite lookup_zip_with_Some. split.
  - intros (p & k & -> & Hp & Hk). simpl. split; [done|].
    rewrite list_lookup_fmap in Hk.
    destruct (seq 1 (length l) !! i) as [n|] eqn:Hn; [|done].
    apply lookup_seq in Hn as [-> _]. by injection Hk as <-.
  - intros [Hl Hr]. exists (score x), (rank x). destruct x; simpl in *.
    split; [done|]. split; [done|].
    rewrite list_lookup_fmap, lookup_seq_lt; [by rewrite Hr|].
    by eapply lookup_lt_Some.
Qed.

Lemma one_to_seq n : one_to n (Z.of_nat <$> seq 1 n).
Proof.
  split.
  - apply NoDup_fmap; [apply _|apply NoDup_seq].
  - intros k. rewrite list_elem_of_fmap. split.
    + intros (i & -> & Hi). apply elem_of_seq in Hi. lia.
    + intros Hk. exists (Z.to_nat k). split; [lia|].
      apply elem_of_seq. lia.
Qed.

Lemma points_df_user_ids (cfg : params F) d w g m :
  p_user_id <$> points_df cfg d w g m = all_users d w g.
Proof.
  unfold points_df. rewrite <- list_fmap_compose.
  apply list_fmap_id.
Qed.

Lemma points_df_length (cfg : params F) d w g m :
  length (points_df cfg d w g m) = size (user_id_set d w g).
Proof. unfold points_df, all_users. by rewrite length_fmap. Qed.
End RankingFacts.

(** C3, as the code has it. After one run the ranks are 1, 2, ..., N in the
    order of the rows, without duplicate or gap, where N is the number of
    distinct user ids found in the three normalized tables; every such user
    is ranked once, whether or not a row of theirs lies in the window. *)
Theorem ranks_one_to_all_users {F : Type} `{Arith F}
    (cfg : params F) (deposit withdrawal gameplays : table)
    (m : month_choice) :
  let rankings := monthly_rankings cfg deposit withdrawal gameplays m in
  let N := size (user_id_set deposit withdrawal gameplays) in
  rank <$> rankings = Z.of_nat <$> seq 1 N
  ∧ one_to N (rank <$> rankings)
  ∧ p_user_id ∘ score <$> rankings
    ≡ₚ elements (user_id_set deposit withdrawal gameplays).
Proof.
  intros rankings N.
  assert (rank <$> rankings = Z.of_nat <$> seq 1 N) as Hranks.
  { unfold rankings, monthly_rankings.
    by rewrite assign_rank_rank, sort_values_length, points_df_length. }
  split; [done|]. split; [rewrite Hranks; apply one_to_seq|].
  unfold rankings, monthly_rankings.
  rewrite list_fmap_compose, assign_rank_score, sort_values_perm.
  by rewrite points_df_user_ids.
Qed.

(** [active_users] lists the users with a row in the window. *)
Lemma elem_of_active_users deposit withdrawal gameplays m uid :
  uid ∈ active_users deposit withdrawal gameplays m
  ↔ has_activity deposit withdrawal gameplays m uid.
Proof.
  unfold active_users, has_activity, all_users, user_id_set.
  rewrite list_elem_of_filter, elem_of_elements, !elem_of_union,
    !elem_of_list_to_set, !list_elem_of_fmap.
  assert (∀ df, select df uid (start_date m) (end_date m) ≠ []
               ↔ ∃ r, r ∈ rows df
                      ∧ qualifies uid (start_date m) (end_date m) r) as Hsel.
  { intros df. split.
    - intros Hne.
      destruct (select df uid (start_date m) (end_date m)) as [|r l] eqn:Hs;
        [done|].
      exists r. apply elem_of_select. rewrite Hs. by left.
    - intros (r & Hr & Hq) Hnil.
      assert (r ∈ select df uid (start_date m) (end_date m)) as Hin
        by (by apply elem_of_select).
      rewrite Hnil in Hin. by apply elem_of_nil in Hin. }
  rewrite !Hsel. split.
  - intros [[(r & Hr & Hq)|[(r & Hr & Hq)|(r & Hr & Hq)]] _].
    + exists deposit, r. repeat split; [by left|done|apply Hq|apply Hq].
    + exists withdrawal, r.
      repeat split; [by right; left|done|apply Hq|apply Hq].
    + exists gameplays, r.
      repeat split; [by right; right; left|done|apply Hq|apply Hq].
  - intros (df & r & Hdf & Hr & Hq).
    assert (user_id r = uid) as Huid by apply Hq.
    apply elem_of_cons in Hdf as [->|Hdf];
      [|apply elem_of_cons in Hdf as [->|Hdf];
        [|apply elem_of_cons in Hdf as [->|Hdf];
          [|by apply elem_of_nil in Hdf]]]; eauto 10.
Qed.

(* ================================================================== *)
(** ** The order of the ranking *)
(* ================================================================== *)

Ltac sf_compare :=
  repeat match goal with
  | |- context [Z.compare ?a ?b] => destruct (Z.compare_spec a b)
  | H : context [Z.compare ?a ?b] |- _ => destruct (Z.compare_spec a b)
  | |- context [Pos.compare_cont Eq ?a ?b] =>
      change (Pos.compare_cont Eq a b) with (Pos.compare a b);
      destruct (Pos.compare_spec a b)
  | H : context [Pos.compare_cont Eq ?a ?b] |- _ =>
      change (Pos.compare_cont Eq a b) with (Pos.compare a b) in H;
      destruct (Pos.compare_spec a b)
  end.

Ltac sf_order x y z :=
  cbn [flt feq binary64];
  rewrite ?ltb_spec, ?FloatAxioms.eqb_spec, ?is_nan_shape;
  unfold SFltb, SFeqb, SFcompare;
  destruct (Prim2SF x) as [[]|[]| |[] ? ?];
  destruct (Prim2SF y) as [[]|[]| |[] ? ?];
  try destruct (Prim2SF z) as [[]|[]| |[] ? ?];
  simpl; intros; try discriminate; try reflexivity; try tauto;
  sf_compare; simpl in *; try discriminate; try reflexivity; try tauto;
  try lia.

(** The comparisons of binary64 order every number but NaN. *)
#[global] Instance binary64_order : ArithOrder float (λ x, is_nan x = false).
Proof.
  split.
  - intros x y. sf_order x y y.
  - intros x y. sf_order x y y.
  - intros x y. sf_order x y y.
  - intros x y z. sf_order x y z.
  - intros x y z. sf_order x y z.
  - intros x y z. sf_order x y z.
  - intros x y z. sf_order x y z.
  - intros x y. sf_order x y y.
Qed.

Lemma flt_exact (x y : Q) : flt x y = true ↔ (x < y)%Q.
Proof.
  cbn. rewrite negb_true_iff, <- not_true_iff_false, Qle_bool_iff.
  split; [apply Qnot_le_lt | apply Qlt_not_le].
Qed.

Lemma feq_exact (x y : Q) : feq x y = true ↔ (x == y)%Q.
Proof. apply Qeq_bool_iff. Qed.

#[global] Instance exact_order : ArithOrder Q (λ _, True).
Proof.
  split; intros *; rewrite <- ?not_true_iff_false, ?flt_exact, ?feq_exact;
    lra.
Qed.

Section Order.
Context {F : Type} `{Arith F} (ok : F → Prop) `{!ArithOrder F ok}.

Lemma before_lex_greater (a b : points F) :
  before a b = true ↔ lex_greater a b.
Proof.
  unfold before, lex_greater.
  by rewrite orb_true_iff, andb_true_iff, Z.ltb_lt.
Qed.

Lemma flt_irrefl (x : F) : flt x x = false.
Proof.
  destruct (flt x x) eqn:Hx; [|done].
  by rewrite (flt_asym _ _ Hx) in Hx.
Qed.

Lemma lex_greater_irrefl (a : points F) : ¬ lex_greater a a.
Proof.
  intros [Hlt|[_ Hlt]]; [|lia]. by rewrite flt_irrefl in Hlt.
Qed.

Lemma lex_greater_asym (a b : points F) :
  lex_greater a b → ¬ lex_greater b a.
Proof.
  intros [Hab|[Hab Hg]] [Hba|[Hba Hg']].
  - by rewrite (flt_asym _ _ Hab) in Hba.
  - by rewrite (flt_not_feq _ _ Hab) in Hba.
  - by rewrite (flt_not_feq _ _ Hba) in Hab.
  - lia.
Qed.

(** Whoever beats [c] beats [b], unless [b] itself beats [c]. *)
Lemma lex_greater_cotrans (a b c : points F) :
  ok (total_points a) → ok (total_points b) →
  lex_greater a c → lex_greater a b ∨ lex_greater b c.
Proof.
  intros Ha Hb Hac. unfold lex_greater in *.
  destruct (trichotomy _ _ Ha Hb) as [Hab|[Hab|Hba]].
  - right. left. destruct Hac as [Hca|[Hac _]].
    + by eapply flt_trans.
    + eapply feq_flt_trans; [|done]. by apply feq_sym.
  - destruct Hac as [Hca|[Hac Hg]].
    + right. left. by eapply flt_feq_trans.
    + destruct (Z_lt_dec (games_played b) (games_played a)) as [Hlt|Hge].
      * left. by right.
      * right. right. split; [|lia].
        eapply feq_trans; [|done]. by apply feq_sym.
  - left. by left.
Qed.

Lemma insert_row_sorted (x : points F) l :
  ok (total_points x) → Forall (ok ∘ total_points) l →
  StronglySorted not_after l → StronglySorted not_after (insert_row x l).
Proof.
  intros Hx Hok Hl. induction Hl as [|y l Hl IH Hy]; simpl.
  { repeat constructor. }
  apply Forall_cons in Hok as [Hoky Hok].
  destruct (before y x) eqn:Hyx.
  - constructor; [by apply IH|].
    rewrite insert_row_perm. constructor; [|done].
    unfold not_after. apply not_true_iff_false.
    rewrite before_lex_greater. apply lex_greater_asym.
    by apply before_lex_greater.
  - constructor; [by constructor|].
    constructor; [done|].
    rewrite Forall_forall in Hy, Hok. apply Forall_forall. intros z Hz.
    unfold not_after in *. apply not_true_iff_false.
    rewrite before_lex_greater. intros Hzx.
    destruct (lex_greater_cotrans z y x) as [Hzy|Hyx']; [by apply Hok|done|done| |].
    + apply before_lex_greater in Hzy. by rewrite (Hy z Hz) in Hzy.
    + apply before_lex_greater in Hyx'. by rewrite Hyx in Hyx'.
Qed.

Lemma sort_values_sorted (l : list (points F)) :
  Forall (ok ∘ total_points) l → StronglySorted not_after (sort_values l).
Proof.
  induction 1 as [|x l Hx Hl IH]; simpl; [constructor|].
  apply insert_row_sorted; [done| |done].
  by rewrite sort_values_perm.
Qed.

Lemma sorted_lookup (l : list (points F)) i j x y :
  StronglySorted not_after l → (i < j)%nat →
  l !! i = Some x → l !! j = Some y → not_after x y.
Proof.
  intros Hl. revert i j. induction Hl as [|z l Hl IH Hz]; intros i j Hij.
  { by rewrite lookup_nil. }
  destruct i as [|i], j as [|j]; try lia; simpl.
  - intros [= ->] Hy. rewrite Forall_forall in Hz. apply Hz.
    by eapply list_elem_of_lookup_2.
  - apply IH. lia.
Qed.
End Order.

(** C4, as the code has it. Over the users whose total points are ordered by
    the comparisons (every number but NaN for binary64): a user whose pair
    (total points, games played) is lexicographically greater than another's
    has the smaller rank, and a user with the smaller rank never has the
    lexicographically smaller pair. Users with equal pairs still get
    different ranks, so the converse of the first part fails. *)
Theorem ranking_follows_keys {F : Type} `{Arith F} (ok : F → Prop)
    `{!ArithOrder F ok} (cfg : params F)
    (deposit withdrawal gameplays : table) (m : month_choice)
    (a b : ranked F) :
  Forall (ok ∘ total_points) (points_df cfg deposit withdrawal gameplays m) →
  a ∈ monthly_rankings cfg deposit withdrawal gameplays m →
  b ∈ monthly_rankings cfg deposit withdrawal gameplays m →
  (lex_greater (score a) (score b) → rank a < rank b)
  ∧ (rank a < rank b → ¬ lex_greater (score b) (score a)).
Proof.
  intros Hok Ha Hb.
  apply (sort_values_sorted ok) in Hok.
  unfold monthly_rankings in Ha, Hb.
  apply list_elem_of_lookup in Ha as [i Hi], Hb as [j Hj].
  apply assign_rank_lookup in Hi as [Hi Hri], Hj as [Hj Hrj].
  assert (∀ (x y : ranked F) (k l : nat),
            sort_values (points_df cfg deposit withdrawal gameplays m) !! k
              = Some (score x) →
            sort_values (points_df cfg deposit withdrawal gameplays m) !! l
              = Some (score y) →
            lex_greater (score x) (score y) → (k < l)%nat) as Hpos.
  { intros x y k l Hk Hl Hxy.
    destruct (Nat.lt_trichotomy k l) as [Hlt|[->|Hgt]]; [done| |].
    - rewrite Hk in Hl. injection Hl as Heq. rewrite Heq in Hxy.
      by apply (lex_greater_irrefl ok) in Hxy.
    - pose proof (sorted_lookup _ _ _ _ _ Hok Hgt Hl Hk) as Hna.
      unfold not_after in Hna. apply before_lex_greater in Hxy.
      by rewrite Hxy in Hna. }
  split.
  - intros Hab. pose proof (Hpos a b i j Hi Hj Hab). lia.
  - intros Hlt Hba. pose proof (Hpos b a j i Hj Hi Hba). lia.
Qed.

(* ================================================================== *)
(** ** Runs on concrete frames *)
(* ================================================================== *)

(** The scenarios of the specification, on binary64. *)
Example deposit_points_uncapped :
  from_deposits
    (calculate_loyalty_points (F:=float)
       (mk_params (decimal 1 100) (decimal 5 1000) (decimal 1 1000)
                  (decimal 2 10) 0 0 50000)
       (normalized (data_frame "Amount" [7; 7] [4000; 6000]
                      ["01-10-2022 10:00"; "02-10-2022 10:00"]))
       (no_rows "Amount") (no_rows "Games Played") 7
       (start_date October_2022) (end_date October_2022))
  = 100%float.
Proof. vm_compute. reflexivity. Qed.

Example deposit_points_capped :
  from_deposits
    (calculate_loyalty_points (F:=float)
       (mk_params (decimal 1 100) (decimal 5 1000) (decimal 1 1000)
                  (decimal 2 10) 0 50 50000)
       (normalized (data_frame "Amount" [7; 7] [4000; 6000]
                      ["01-10-2022 10:00"; "02-10-2022 10:00"]))
       (no_rows "Amount") (no_rows "Games Played") 7
       (start_date October_2022) (end_date October_2022))
  = 50%float.
Proof. vm_compute. reflexivity. Qed.

Example frequency_points_three_deposits_one_withdrawal :
  from_frequency
    (calculate_loyalty_points (F:=float) default_params
       (normalized (data_frame "Amount" [7; 7; 7] [10; 10; 10]
                      ["01-10-2022 10:00"; "02-10-2022 10:00";
                       "03-10-2022 10:00"]))
       (normalized (data_frame "Amount" [7] [10] ["04-10-2022 10:00"]))
       (no_rows "Games Played") 7
       (start_date October_2022) (end_date October_2022))
  = decimal 2 1000.
Proof. vm_compute. reflexivity. Qed.

Example daily_bonus_two_days :
  from_daily_bonus
    (calculate_loyalty_points (F:=float)
       (mk_params (decimal 1 100) (decimal 5 1000) (decimal 1 1000)
                  (decimal 2 10) 5 0 50000)
       (no_rows "Amount") (no_rows "Amount")
       (normalized (data_frame "Games Played" [7; 7; 7] [3; 40; 1]
                      ["01-10-2022 10:00"; "01-10-2022 18:30";
                       "09-10-2022 10:00"]))
       7 (start_date October_2022) (end_date October_2022))
  = 10.
Proof. vm_compute. reflexivity. Qed.

(** The sample data in November: user 101 has rows, none in the window. *)
Lemma aggregation_window_and_zero_activity_witness :
  PrimFloat.eqb
    (total_points
       (calculate_loyalty_points (F:=float) default_params
          october_deposit october_withdrawal october_gameplay 101
          (start_date November_2022) (end_date November_2022)))
    (of_int 0) = true.
Proof.
  assert (finite_multipliers default_params) as Hfinite
    by (by vm_compute).
  assert (deposit_cap (default_params (F:=float)) < 2 ^ 63) as Hcap
    by (by vm_compute).
  destruct (aggregation_window_and_zero_activity default_params
              october_deposit october_withdrawal october_gameplay 101
              (start_date November_2022) (end_date November_2022)
              Hfinite Hcap) as (Hsel & _ & Hzero).
  apply Hzero. intros df r Hdf Hr Hq.
  assert (r ∈ select df 101 (start_date November_2022)
                 (end_date November_2022)) as Hin by (by apply Hsel).
  repeat (apply elem_of_cons in Hdf as [->|Hdf];
          [vm_compute in Hin; by apply elem_of_nil in Hin|]).
  by apply elem_of_nil in Hdf.
Defined.

(** C3 as stated fails: with user 2 depositing in November only, the October
    run ranks two users although a single one is active in the window. *)
Lemma ranks_count_inactive_users :
  rank <$> monthly_rankings (F:=float) default_params
             guest_deposit (no_rows "Amount") (no_rows "Games Played")
             October_2022 = [1; 2]
  ∧ active_users guest_deposit (no_rows "Amount") (no_rows "Games Played")
                 October_2022 = [1]
  ∧ ¬ one_to
        (length (active_users guest_deposit (no_rows "Amount")
                   (no_rows "Games Played") October_2022))
        (rank <$> monthly_rankings (F:=float) default_params
                    guest_deposit (no_rows "Amount") (no_rows "Games Played")
                    October_2022).
Proof.
  assert (rank <$> monthly_rankings (F:=float) default_params
             guest_deposit (no_rows "Amount") (no_rows "Games Played")
             October_2022 = [1; 2]) as -> by (by vm_compute).
  assert (active_users guest_deposit (no_rows "Amount")
            (no_rows "Games Played") October_2022 = [1]) as ->
    by (by vm_compute).
  split; [done|]. split; [done|].
  intros [_ Hset]. specialize (Hset 2) as [Hset _].
  assert (1 ≤ 2 ≤ Z.of_nat 1) by (apply Hset; repeat constructor). lia.
Qed.

(** The ranking of the sample data, checked pair by pair. *)
Lemma ranking_follows_keys_witness :
  let rankings :=
    monthly_rankings (F:=float) default_params
      october_deposit october_withdrawal october_gameplay October_2022 in
  Forall (λ a, Forall (λ b,
            (lex_greater (score a) (score b) → rank a < rank b)
            ∧ (rank a < rank b → ¬ lex_greater (score b) (score a)))
          rankings) rankings.
Proof.
  intros rankings.
  apply (proj2 (Forall_forall _ _)). intros a Ha.
  apply (proj2 (Forall_forall _ _)). intros b Hb.
  apply (ranking_follows_keys (λ x, is_nan x = false)
           default_params october_deposit october_withdrawal
           october_gameplay October_2022 a b); [|done|done].
  vm_compute. repeat constructor.
Defined.

(** C4 as stated fails: two users with the same total points and the same
    number of games get ranks 1 and 2, and neither pair is greater. *)
Lemma equal_keys_distinct_ranks :
  ∃ a b : ranked float,
    let rankings :=
      monthly_rankings (F:=float) default_params
        (no_rows "Amount") (no_rows "Amount") twin_gameplay October_2022 in
    a ∈ rankings ∧ b ∈ rankings
    ∧ rank a < rank b ∧ ¬ lex_greater (score a) (score b).
Proof.
  destruct (monthly_rankings (F:=float) default_params
              (no_rows "Amount") (no_rows "Amount") twin_gameplay
              October_2022) as [|a [|b rest]] eqn:Hrk;
    [by vm_compute in Hrk..|].
  exists a, b. cbv zeta.
  vm_compute in Hrk. injection Hrk as <- <- <-.
  split; [repeat constructor|]. split; [repeat constructor|].
  split; [done|].
  intros [Hlt|[_ Hlt]]; [by vm_compute in Hlt|]. vm_compute in Hlt. done.
Qed.

(* ================================================================== *)
(** ** The allocation table *)
(* ================================================================== *)

Section AllocationFacts.
Context {F : Type} `{Arith F}.

Lemma zip_with_columns {A B C D : Type} (f : A → B) (g : A → C) (h : A → D)
    (l : list A) :
  zip (zip (f <$> l) (g <$> l)) (h <$> l) = (λ x, (f x, g x, h x)) <$> l.
Proof. induction l as [|x l IH]; csimpl; [done|]. by f_equal. Qed.

Lemma zip_with_fmap_same {A B C : Type} (f : A → B → C) (g : A → B)
    (l : list A) :
  zip_with f l (g <$> l) = (λ x, f x (g x)) <$> l.
Proof. induction l as [|x l IH]; csimpl; [done|]. by f_equal. Qed.

(** Each row of [top_50] carries the entries of the three columns at its
    own position. *)
Lemma allocate_columns (pool : Z) (rankings : list (ranked F)) :
  let top := take top_k rankings in
  player <$> allocate pool rankings = top
  ∧ proportional <$> allocate pool rankings = proportional_column pool top
  ∧ tiered <$> allocate pool rankings = tiered_column pool top
  ∧ hybrid <$> allocate pool rankings = hybrid_column pool top.
Proof.
  intros top. unfold allocate. fold top.
  unfold proportional_column, tiered_column, hybrid_column. cbv zeta.
  rewrite zip_with_columns, zip_with_fmap_same, <- !list_fmap_compose.
  repeat split; try done. apply list_fmap_id.
Qed.

Lemma tiered_of_rank (pool : Z) (rankings : list (ranked F)) x :
  x ∈ allocate pool rankings →
  player x ∈ take top_k rankings
  ∧ tiered x = tiered_amount pool (rank (player x)).
Proof.
  unfold allocate, proportional_column, tiered_column, hybrid_column.
  cbv zeta.
  rewrite zip_with_columns, zip_with_fmap_same, list_elem_of_fmap.
  by intros (r & -> & Hr).
Qed.

Lemma allocate_row (pool : Z) (rankings : list (ranked F)) x :
  x ∈ allocate pool rankings →
  let top := take top_k rankings in
  let p := score (player x) in
  proportional x
  = fmul (fdiv (total_points p) (series_sum (total_points ∘ score <$> top)))
         (of_int pool)
  ∧ hybrid x
    = fmul
        (fadd
           (fadd
              (fdiv (fmul points_weight (total_points p))
                    (series_sum (total_points ∘ score <$> top)))
              (fdiv (fmul games_weight (of_int (games_played p)))
                    (of_int (int_sum (games_played ∘ score <$> top)))))
           (fdiv (fmul deposit_weight (of_int (total_deposits p)))
                 (of_int (int_sum (total_deposits ∘ score <$> top)))))
        (of_int pool).
Proof.
  unfold allocate, proportional_column, tiered_column, hybrid_column.
  cbv zeta.
  rewrite zip_with_columns, zip_with_fmap_same, list_elem_of_fmap.
  by intros (r & -> & Hr).
Qed.

Lemma top_ranks (l : list (points F)) r :
  r ∈ take top_k (assign_rank l) → 1 ≤ rank r ≤ Z.of_nat top_k.
Proof.
  intros Hr. apply list_elem_of_lookup in Hr as [i Hi].
  apply lookup_take_Some in Hi as [Hi Hlt].
  apply assign_rank_lookup in Hi as [_ ->]. lia.
Qed.
End AllocationFacts.

(** C7. The tiered amount of a row of [top_50] depends on the band of its
    rank only: the rank lies in 1..K for K = 50, ranks 1..10 receive exactly
    pool * 0.3 / 10, ranks 11..30 exactly pool * 0.4 / 20, ranks 31..K
    exactly pool * 0.3 / (K - 30), and two rows in the same band receive
    the same amount. *)
Theorem tiered_by_rank_band {F : Type} `{Arith F} (cfg : params F)
    (deposit withdrawal gameplays : table) (m : month_choice)
    (x y : allocation F) :
  x ∈ top_50 cfg deposit withdrawal gameplays m →
  y ∈ top_50 cfg deposit withdrawal gameplays m →
  let pool := of_int (bonus_pool cfg) in
  let rk := rank (player x) in
  1 ≤ rk ≤ Z.of_nat top_k
  ∧ (rk ≤ 10 → tiered x = fdiv (fmul pool (decimal 3 10)) (of_int 10))
  ∧ (11 ≤ rk ≤ 30 → tiered x = fdiv (fmul pool (decimal 4 10)) (of_int 20))
  ∧ (31 ≤ rk →
     tiered x = fdiv (fmul pool (decimal 3 10))
                     (of_int (Z.of_nat top_k - 30)))
  ∧ (band_of rk = band_of (rank (player y)) → tiered x = tiered y).
Proof.
  intros Hx Hy pool rk.
  apply tiered_of_rank in Hx as [Hx ->], Hy as [Hy ->].
  apply top_ranks in Hx, Hy. fold rk in Hx |- *.
  unfold tiered_amount, band_of. fold pool.
  change (Z.of_nat top_k - 30) with 20.
  split; [done|].
  destruct (Z.leb_spec rk 10), (Z.leb_spec rk 30), (Z.ltb_spec 10 rk),
    (Z.ltb_spec 30 rk); try lia; simpl;
    (repeat split; [lia || done ..|]);
    destruct (Z.leb_spec (rank (player y)) 10),
      (Z.leb_spec (rank (player y)) 30),
      (Z.ltb_spec 10 (rank (player y))),
      (Z.ltb_spec 30 (rank (player y))); try lia; simpl; done.
Qed.

(** The first two rows of the sample run share the first band. *)
Lemma tiered_by_rank_band_witness :
  let top := top_50 (F:=float) default_params october_deposit
               october_withdrawal october_gameplay October_2022 in
  Forall (λ x, Forall (λ y,
            band_of (rank (player x)) = band_of (rank (player y)) →
            tiered x = tiered y) top) top.
Proof.
  intros top.
  apply (proj2 (Forall_forall _ _)). intros x Hx.
  apply (proj2 (Forall_forall _ _)). intros y Hy.
  by destruct (tiered_by_rank_band default_params october_deposit
                 october_withdrawal october_gameplay October_2022 x y Hx Hy)
    as (_ & _ & _ & _ & Hband).
Defined.

(* ================================================================== *)
(** ** Division by a zero sum *)
(* ================================================================== *)

(** C10, as the code has it. The divisions of the Proportional and Hybrid
    columns are performed as they stand. When the total points of the subset
    sum to zero, the Proportional and the Hybrid amount of every row are
    NaN or an infinity, never a finite amount; the Proportional amount is NaN
    for a row whose own total points are zero. The Hybrid amount is likewise
    not finite when the games, or the deposits, of the subset sum to zero. *)
Theorem zero_sum_allocations_not_finite (cfg : params float)
    (deposit withdrawal gameplays : table) (m : month_choice)
    (x : allocation float) :
  x ∈ top_50 cfg deposit withdrawal gameplays m →
  let top := player <$> top_50 cfg deposit withdrawal gameplays m in
  let points_total := series_sum (total_points ∘ score <$> top) in
  let games_total := int_sum (games_played ∘ score <$> top) in
  let deposits_total := int_sum (total_deposits ∘ score <$> top) in
  (PrimFloat.eqb points_total (of_int 0) = true →
     is_finite (proportional x) = false
     ∧ is_finite (hybrid x) = false
     ∧ (PrimFloat.eqb (total_points (score (player x))) (of_int 0) = true →
        is_nan (proportional x) = true))
  ∧ (games_total = 0 → is_finite (hybrid x) = false)
  ∧ (deposits_total = 0 → is_finite (hybrid x) = false).
Proof.
  intros Hx top points_total games_total deposits_total.
  apply allocate_row in Hx as [Hprop Hhyb].
  subst top points_total games_total deposits_total.
  unfold top_50.
  destruct (allocate_columns (bonus_pool cfg)
              (monthly_rankings cfg deposit withdrawal gameplays m))
    as (-> & _).
  rewrite Hprop, Hhyb. cbn [fmul fdiv fadd of_int binary64].
  split; [intros Hzero; apply eqb_zero_shape in Hzero|split; intros ->].
  - split; [|split].
    + by apply mul_not_finite_l, div_zero_not_finite.
    + by apply mul_not_finite_l, add_not_finite_l, add_not_finite_l,
        div_zero_not_finite.
    + intros Hown. apply eqb_zero_shape in Hown.
      by apply mul_nan_l, div_zero_zero_nan.
  - by apply mul_not_finite_l, add_not_finite_l, add_not_finite_r,
      div_zero_not_finite.
  - by apply mul_not_finite_l, add_not_finite_r, div_zero_not_finite.
Qed.

(** On the sample data in November every score is zero and every
    Proportional amount is NaN. *)
Lemma zero_sum_allocations_not_finite_witness :
  let top := top_50 (F:=float) default_params october_deposit
               october_withdrawal october_gameplay November_2022 in
  Forall (λ x, is_nan (proportional x) = true
               ∧ is_finite (hybrid x) = false) top.
Proof.
  intros top.
  assert (Forall (λ x, PrimFloat.eqb (total_points (score (player x)))
                         (of_int 0) = true) top) as Hown
    by (vm_compute; repeat constructor).
  apply (proj2 (Forall_forall _ _)). intros x Hx.
  destruct (zero_sum_allocations_not_finite default_params october_deposit
              october_withdrawal october_gameplay November_2022 x Hx)
    as [Hpoints _].
  destruct Hpoints as (_ & Hhybrid & Hnan); [by vm_compute|].
  split; [|done]. apply Hnan.
  by apply (proj1 (Forall_forall _ _) Hown).
Defined.

(** C10 as stated fails: the points 5 and -5 sum to zero, and the amounts are
    the infinities, not NaN. *)
Lemma zero_sum_infinite_amounts :
  let top := top_50 (F:=float) offsetting_params offsetting_deposit
               offsetting_withdrawal offsetting_gameplay October_2022 in
  total_points ∘ score ∘ player <$> top = [5%float; (-5)%float]
  ∧ series_sum (total_points ∘ score ∘ player <$> top) = 0%float
  ∧ proportional <$> top = [infinity; neg_infinity]
  ∧ hybrid <$> top = [infinity; neg_infinity]
  ∧ is_nan infinity = false ∧ is_nan neg_infinity = false.
Proof. by vm_compute. Qed.



(* ================================================================== *)
(** ** The amounts add up to the pool, in exact arithmetic *)
(* ================================================================== *)

Section ExactSums.
Local Open Scope Q_scope.




Context {A : Type}.





End ExactSums.

Section ExactAllocation.
Local Open Scope Q_scope.




Variable cfg : params Q.
Variables deposit withdrawal gameplays : table.
Variable m : month_choice.

Let top := top_50 cfg deposit withdrawal gameplays m.
Let pool := inject_Z (bonus_pool cfg).



End ExactAllocation.





(* ================================================================== *)
(** ** The validator *)
(* ================================================================== *)

Section ValidatorFacts.
Variable strptime : string → option datetime.

(** What one call does to the store, case by case. *)
Lemma process_data_unfold (l : loc) (name : string) (s : state)
    (frame : table) :
  heap s !! l = Some frame →
  process_data strptime (Some l) name s
  = if bool_decide ("Datetime" ∈ columns frame) then
      let h := <[l := converted strptime frame]> (heap s) in
      let invalid_dates := invalid_count (converted strptime frame) in
      if 0 <? invalid_dates then
        (Some (fresh (dom h)),
         mk_state (<[fresh (dom h) := dropna (converted strptime frame)]> h)
                  (log s ++ [st_warning invalid_dates name]))
      else (Some l, mk_state h (log s))
    else (None, mk_state (heap s) (log s ++ [st_error name])).
Proof.
  intros Hl. unfold process_data, bind, lookup_frame. rewrite Hl.
  destruct (bool_decide _); [|done]. cbn.
  by destruct (0 <? _).
Qed.

Lemma to_datetime_parsed (c : cell) :
  to_datetime strptime c ≠ NaT ↔ ∃ t, to_datetime strptime c = Time t.
Proof.
  destruct c as [txt|t|]; simpl; [destruct (strptime txt)|..];
    split; try done; eauto; by intros [t' [=]].
Qed.

Lemma isna_to_datetime (c : cell) :
  isna (to_datetime strptime c) = true ↔ to_datetime strptime c = NaT.
Proof. by destruct (to_datetime strptime c). Qed.

Lemma filter_converted (P : row → Prop) `{∀ r, Decision (P r)}
    (l : list row) :
  filter P (convert_row strptime <$> l)
  = convert_row strptime <$> filter (P ∘ convert_row strptime) l.
Proof.
  induction l as [|r l IH]; csimpl; [done|].
  rewrite !filter_cons. simpl. destruct (decide _); csimpl; by rewrite IH.
Qed.

Lemma filter_equiv {A : Type} (P Q : A → Prop) `{∀ x, Decision (P x)}
    `{∀ x, Decision (Q x)} (l : list A) :
  (∀ x, P x ↔ Q x) → filter P l = filter Q l.
Proof.
  intros HPQ. induction l as [|x l IH]; [done|].
  rewrite !filter_cons, IH.
  destruct (decide (P x)) as [HP|HP], (decide (Q x)) as [HQ|HQ];
    try done; by apply HPQ in HP || apply HPQ in HQ.
Qed.

(** The rows that stay: those whose timestamp parses, converted. *)
Lemma dropna_converted_rows (frame : table) :
  rows (dropna (converted strptime frame))
  = convert_row strptime
    <$> filter (λ r, to_datetime strptime (datetime_cell r) ≠ NaT)
               (rows frame).
Proof.
  unfold dropna, converted. simpl. rewrite filter_converted.
  f_equal. apply filter_equiv. intros r. simpl.
  rewrite <- isna_to_datetime. by destruct (isna _).
Qed.

Lemma invalid_count_converted (frame : table) :
  invalid_count (converted strptime frame)
  = Z.of_nat (length (filter (λ r, to_datetime strptime (datetime_cell r)
                                   = NaT) (rows frame))).
Proof.
  unfold invalid_count, converted. simpl.
  rewrite filter_converted, length_fmap. do 2 f_equal.
  apply filter_equiv. intros r. simpl. apply isna_to_datetime.
Qed.

(** Without an invalid row [dropna] would return the same rows. *)
Lemma dropna_nothing (frame : table) :
  invalid_count frame = 0 → dropna frame = frame.
Proof.
  unfold invalid_count, dropna. destruct frame as [cols rs]. simpl.
  intros Hz. f_equal.
  assert (filter (λ r, isna (datetime_cell r) = true) rs = []) as Hnil
    by (apply length_zero_iff_nil; lia).
  clear Hz. induction rs as [|r rs IH]; [done|].
  rewrite filter_cons in Hnil |- *.
  destruct (decide (isna (datetime_cell r) = true)) as [|Hna]; [done|].
  apply not_true_is_false in Hna.
  destruct (decide (isna (datetime_cell r) = false)); [|done].
  f_equal. by apply IH.
Qed.

Lemma dropna_rows_parsed (frame : table) :
  Forall (λ r, ∃ t, datetime_cell r = Time t)
         (rows (dropna (converted strptime frame))).
Proof.
  rewrite dropna_converted_rows. apply Forall_fmap, Forall_forall.
  intros r Hr. apply list_elem_of_filter in Hr as [Hr _].
  by apply to_datetime_parsed.
Qed.

(** A frame without the column is left alone by every call, so a later
    call on it still fails. *)
Lemma process_data_keeps_missing (df : option loc) (name : string)
    (s : state) (l : loc) (frame : table) :
  heap s !! l = Some frame → "Datetime" ∉ columns frame →
  heap (snd (process_data strptime df name s)) !! l = Some frame.
Proof.
  intros Hl Hmissing. destruct df as [l'|]; [|done].
  destruct (heap s !! l') as [frame'|] eqn:Hl'.
  - rewrite (process_data_unfold _ _ _ _ Hl').
    assert (l' ≠ l → <[l':=converted strptime frame']> (heap s) !! l
                     = Some frame) as Hother
      by (intros Hne; by rewrite lookup_insert_ne).
    case_bool_decide as Hcol; [|done].
    assert (l' ≠ l) as Hne by (intros ->; congruence).
    cbv zeta. destruct (0 <? _); simpl; [|by apply Hother].
    rewrite lookup_insert_ne; [by apply Hother|].
    intros Heq.
    pose proof (is_fresh (dom (<[l':=converted strptime frame']> (heap s))))
      as Hfresh.
    rewrite Heq in Hfresh. apply Hfresh, elem_of_dom.
    exists frame. by apply Hother.
  - unfold process_data, bind, lookup_frame. by rewrite Hl'.
Qed.

Lemma process_data_missing (name : string) (s : state) (l : loc)
    (frame : table) :
  heap s !! l = Some frame → "Datetime" ∉ columns frame →
  fst (process_data strptime (Some l) name s) = None.
Proof.
  intros Hl Hmissing. rewrite (process_data_unfold _ _ _ _ Hl).
  by case_bool_decide.
Qed.

(** The run stops when one of the three frames lacks the column. *)
Lemma analysis_halts {F : Type} `{Arith F} (cfg : params F)
    (m : month_choice) (d w g : option loc) (s : state) (l : loc)
    (frame : table) :
  heap s !! l = Some frame → "Datetime" ∉ columns frame →
  Some l ∈ [d; w; g] →
  fst (analysis strptime cfg m d w g s) = None.
Proof.
  intros Hl Hmissing Hin.
  unfold analysis, process_files, bind.
  destruct (process_data strptime d "Deposit" s) as [rd s1] eqn:Hd.
  destruct (process_data strptime w "Withdrawal" s1) as [rw s2] eqn:Hw.
  destruct (process_data strptime g "Gameplay" s2) as [rg s3] eqn:Hg.
  pose proof (process_data_keeps_missing d "Deposit" s l frame Hl Hmissing)
    as Hl1. rewrite Hd in Hl1. simpl in Hl1.
  pose proof (process_data_keeps_missing w "Withdrawal" s1 l frame Hl1
                Hmissing) as Hl2. rewrite Hw in Hl2. simpl in Hl2.
  assert (rd = None ∨ rw = None ∨ rg = None) as Hnone.
  { apply elem_of_cons in Hin as [<-|Hin].
    { left. pose proof (process_data_missing "Deposit" s l frame Hl Hmissing)
        as Hr. by rewrite Hd in Hr. }
    apply elem_of_cons in Hin as [<-|Hin].
    { right. left.
      pose proof (process_data_missing "Withdrawal" s1 l frame Hl1
                    Hmissing) as Hr. by rewrite Hw in Hr. }
    apply elem_of_cons in Hin as [<-|Hin]; [|by apply elem_of_nil in Hin].
    right. right.
    pose proof (process_data_missing "Gameplay" s2 l frame Hl2 Hmissing)
      as Hr. by rewrite Hg in Hr. }
  unfold ret. simpl.
  destruct Hnone as [ -> | [ -> | -> ] ]; simpl;
    repeat match goal with
           | |- context [deref ?x ?s] =>
               destruct (deref x s) as [ [ ? | ] ? ]; simpl
           end; done.
Qed.
End ValidatorFacts.

(** C8. Given a raw table, the validator fails, with the error naming the
    table, if and only if the ['Datetime'] column is absent, and the run then
    stops without a result. Otherwise it returns a table: the rows whose
    timestamp parses, converted, in their order; the rows that fail to parse
    are counted, and the count is reported as a warning exactly when it is
    greater than zero. *)
Theorem process_data_validates (strptime : string → option datetime)
    (l : loc) (name : string) (s : state) (frame : table) :
  heap s !! l = Some frame →
  let out := process_data strptime (Some l) name s in
  let invalid_dates :=
    Z.of_nat (length (filter (λ r, to_datetime strptime (datetime_cell r)
                                   = NaT) (rows frame))) in
  (fst out = None ↔ "Datetime" ∉ columns frame)
  ∧ ("Datetime" ∉ columns frame →
     log (snd out) = log s ++ [st_error name]
     ∧ ∀ (F : Type) (H : Arith F) (cfg : params F) (m : month_choice)
         (d w g : option loc),
         Some l ∈ [d; w; g] → fst (analysis strptime cfg m d w g s) = None)
  ∧ ("Datetime" ∈ columns frame →
     log (snd out)
     = log s ++ (if 0 <? invalid_dates
                 then [st_warning invalid_dates name] else [])
     ∧ ∃ (l' : loc) (returned : table),
         fst out = Some l'
         ∧ heap (snd out) !! l' = Some returned
         ∧ columns returned = columns frame
         ∧ rows returned
           = convert_row strptime
             <$> filter (λ r, to_datetime strptime (datetime_cell r) ≠ NaT)
                        (rows frame)
         ∧ Forall (λ r, ∃ t, datetime_cell r = Time t) (rows returned)).
Proof.
  intros Hl out invalid_dates. subst out invalid_dates.
  rewrite (process_data_unfold _ _ _ _ _ Hl), <- invalid_count_converted.
  case_bool_decide as Hcol.
  - cbv zeta. split; [|split; [done|intros _]].
    { destruct (0 <? _); by split. }
    destruct (0 <? invalid_count (converted strptime frame)) eqn:Hbad;
      simpl; (split; [by rewrite ?app_nil_r|]).
    + eexists _, (dropna (converted strptime frame)).
      split; [done|]. split; [by rewrite lookup_insert_eq|].
      split; [done|]. split; [apply dropna_converted_rows|].
      apply dropna_rows_parsed.
    + exists l, (converted strptime frame).
      split; [done|]. split; [by rewrite lookup_insert_eq|].
      split; [done|].
      assert (dropna (converted strptime frame) = converted strptime frame)
        as Hsame.
      { apply dropna_nothing. apply Z.ltb_ge in Hbad.
        unfold invalid_count in *. lia. }
      split.
      * rewrite <- Hsame at 1. apply dropna_converted_rows.
      * rewrite <- Hsame. apply dropna_rows_parsed.
  - split; [done|]. split; [|done]. intros _. split; [done|].
    intros F H cfg m d w g Hin. by eapply analysis_halts.
Qed.

(** C9, as the code has it. The validator overwrites the ['Datetime'] column
    of the table it is given, in place: after the call the object the caller
    passed holds the converted column, with its labels, its user ids and its
    measures as before, and no other object of the store is touched. When no
    row is invalid the returned table is that same object; otherwise it is a
    new object holding the valid rows. The stages after the three
    validations only read: they leave the store as the validations left
    it. *)
Theorem process_data_converts_in_place (strptime : string → option datetime)
    (l : loc) (name : string) (s : state) (frame : table) :
  heap s !! l = Some frame →
  "Datetime" ∈ columns frame →
  let out := process_data strptime (Some l) name s in
  let after := converted strptime frame in
  heap (snd out) !! l = Some after
  ∧ columns after = columns frame
  ∧ user_id <$> rows after = user_id <$> rows frame
  ∧ measure <$> rows after = measure <$> rows frame
  ∧ (∀ l', l' ≠ l → is_Some (heap s !! l') →
           heap (snd out) !! l' = heap s !! l')
  ∧ (invalid_count after = 0 → fst out = Some l)
  ∧ (0 < invalid_count after →
     ∃ l', fst out = Some l' ∧ heap s !! l' = None
           ∧ heap (snd out) !! l' = Some (dropna after))
  ∧ (∀ (F : Type) (H : Arith F) (cfg : params F) (m : month_choice)
       (d w g : option loc),
       snd (analysis strptime cfg m d w g s)
       = snd (process_files strptime d w g s)).
Proof.
  intros Hl Hcol out after. subst out after.
  rewrite (process_data_unfold _ _ _ _ _ Hl).
  rewrite bool_decide_eq_true_2 by done. cbv zeta.
  set (h := <[l:=converted strptime frame]> (heap s)).
  set (new := fresh (dom h)).
  assert (new ∉ dom h) as Hfresh by apply is_fresh.
  assert (new ≠ l) as Hne.
  { intros Heq. rewrite Heq in Hfresh. apply Hfresh, elem_of_dom.
    subst h. rewrite lookup_insert_eq. eauto. }
  assert (heap s !! new = None) as Hnew.
  { apply not_elem_of_dom. intros Hin. apply Hfresh.
    subst h. rewrite dom_insert. set_solver. }
  split.
  { destruct (0 <? _); simpl; subst h;
      [rewrite lookup_insert_ne by done|]; by rewrite lookup_insert_eq. }
  split; [done|].
  split; [unfold converted; simpl; by rewrite <- list_fmap_compose|].
  split; [unfold converted; simpl; by rewrite <- list_fmap_compose|].
  split.
  { intros l' Hl' [frame' Hsome].
    assert (new ≠ l') as Hne' by (intros <-; congruence).
    destruct (0 <? _); simpl; subst h;
      [rewrite lookup_insert_ne by done|]; by rewrite lookup_insert_ne. }
  split.
  { intros Hzero. by rewrite Hzero. }
  split.
  { intros Hbad. apply Z.ltb_lt in Hbad. rewrite Hbad. simpl.
    exists new. split; [done|]. split; [done|]. by rewrite lookup_insert_eq. }
  intros F H cfg m d w g. unfold analysis, bind.
  destruct (process_files strptime d w g s) as [[[rd rw] rg] s'].
  unfold deref, lookup_frame, ret. simpl.
  destruct rd, rw, rg; simpl; repeat case_match; done.
Qed.

(** A file with one impossible date: one warning, one row returned, in a new
    frame. *)
Lemma process_data_validates_witness :
  let out := process_data strptime_digits (Some 1%positive) "Deposit"
               messy_state in
  log (snd out) = [st_warning 1 "Deposit"]
  ∧ ∃ (l' : loc) (returned : table),
      fst out = Some l'
      ∧ heap (snd out) !! l' = Some returned
      ∧ rows returned
        = [mk_row 1 100 (Time (mk_datetime 2022 10 5 10 0 0))].
Proof.
  cbv zeta.
  assert (heap messy_state !! 1%positive = Some messy_deposit) as Hl
    by (by vm_compute).
  destruct (process_data_validates strptime_digits 1%positive "Deposit"
              messy_state messy_deposit Hl) as (_ & _ & Hpresent).
  destruct Hpresent as [Hlog (l' & returned & Hout & Hheap & _ & Hrows & _)].
  { vm_compute. repeat constructor. }
  split; [etrans; [exact Hlog|by vm_compute]|].
  exists l', returned. split; [exact Hout|]. split; [exact Hheap|].
  rewrite Hrows. by vm_compute.
Defined.

(** The sample deposits: no invalid row, so the caller gets its own frame
    back, converted. *)
Lemma process_data_converts_in_place_witness :
  let out := process_data strptime_digits (Some 1%positive) "Deposit"
               sample_state in
  fst out = Some 1%positive
  ∧ heap (snd out) !! 1%positive
    = Some (converted strptime_digits sample_deposit)
  ∧ heap (snd out) !! 2%positive = Some sample_withdrawal.
Proof.
  cbv zeta.
  assert (heap sample_state !! 1%positive = Some sample_deposit) as Hl
    by (by vm_compute).
  assert ("Datetime" ∈ columns sample_deposit) as Hcol
    by (vm_compute; repeat constructor).
  destruct (process_data_converts_in_place strptime_digits 1%positive
              "Deposit" sample_state sample_deposit Hl Hcol)
    as (Hin & _ & _ & _ & Hothers & Hsame & _).
  split; [apply Hsame; by vm_compute|]. split; [exact Hin|].
  rewrite Hothers;
    [by vm_compute|done|exists sample_withdrawal; by vm_compute].
Defined.

(** C9 as stated fails: after the call the frame the caller passed no longer
    holds the texts it was read with, and the frame returned is that very
    object. *)
Lemma process_data_overwrites_input :
  let out := process_data strptime_digits (Some 1%positive) "Deposit"
               sample_state in
  heap sample_state !! 1%positive = Some sample_deposit
  ∧ fst out = Some 1%positive
  ∧ heap (snd out) !! 1%positive
    = Some (converted strptime_digits sample_deposit)
  ∧ datetime_cell <$> rows sample_deposit
    ≠ datetime_cell <$> rows (converted strptime_digits sample_deposit).
Proof.
  cbv zeta. split; [by vm_compute|]. split; [by vm_compute|].
  split; [by vm_compute|].
  intros Heq. vm_compute in Heq. discriminate Heq.
Qed.

(* ================================================================== *)
(** * Further properties *)
(* ================================================================== *)

(** ** Scoring *)

(** X1. With a positive cap the deposit points are either the uncapped
    product or the cap itself, and the cap is never below them. *)
Theorem deposit_points_never_above_cap {F : Type} `{Arith F} (ok : F → Prop)
    `{!ArithOrder F ok} (cfg : params F)
    (deposit withdrawal gameplays : table) (uid : Z)
    (start_date end_date : datetime) :
  0 < deposit_cap cfg →
  let p := calculate_loyalty_points cfg deposit withdrawal gameplays uid
             start_date end_date in
  let uncapped := fmul (deposit_multiplier cfg) (of_int (total_deposits p)) in
  flt (of_int (deposit_cap cfg)) (from_deposits p) = false
  ∧ (from_deposits p = uncapped ∨ from_deposits p = of_int (deposit_cap cfg))
  ∧ (flt (of_int (deposit_cap cfg)) uncapped = true →
     from_deposits p = of_int (deposit_cap cfg)).
Proof.
  intros Hcap p uncapped. subst p uncapped. simpl.
  apply Z.ltb_lt in Hcap. rewrite Hcap. unfold py_min.
  destruct (flt (of_int (deposit_cap cfg)) (fmul _ _)) eqn:Hlt.
  - split; [apply (flt_irrefl ok)|]. by split; [right|].
  - split; [done|]. by split; [left|].
Qed.

Lemma deposit_points_never_above_cap_witness :
  PrimFloat.ltb 50
    (from_deposits
       (calculate_loyalty_points (F:=float)
          (mk_params (decimal 1 100) (decimal 5 1000) (decimal 1 1000)
                     (decimal 2 10) 0 50 50000)
          october_deposit october_withdrawal october_gameplay 101
          (start_date October_2022) (end_date October_2022)))
  = false.
Proof.
  by destruct (deposit_points_never_above_cap (λ x, is_nan x = false)
                 (mk_params (decimal 1 100) (decimal 5 1000)
                            (decimal 1 1000) (decimal 2 10) 0 50 50000)
                 october_deposit october_withdrawal october_gameplay 101
                 (start_date October_2022) (end_date October_2022)
                 eq_refl) as [Hbound _].
Defined.

(** X2. A user with at least as many withdrawals as deposits in the window
    earns no frequency points: the multiplier meets the integer 0, and on
    binary64, for a finite multiplier, the term compares equal to zero. *)
Theorem frequency_points_need_net_deposits (cfg : params float)
    (deposit withdrawal gameplays : table) (uid : Z)
    (start_date end_date : datetime) :
  is_finite (frequency_multiplier cfg) = true →
  let p := calculate_loyalty_points cfg deposit withdrawal gameplays uid
             start_date end_date in
  num_deposits p ≤ num_withdrawals p →
  from_frequency p = (frequency_multiplier cfg * of_int 0)%float
  ∧ PrimFloat.eqb (from_frequency p) (of_int 0) = true.
Proof.
  intros Hfinite p Hle. subst p. simpl in *.
  rewrite Z.max_r by lia.
  split; [done|].
  apply zero_eqb; [|done]. by apply mul_finite_zero.
Qed.

Lemma frequency_points_need_net_deposits_witness :
  PrimFloat.eqb
    (from_frequency
       (calculate_loyalty_points (F:=float) default_params
          (no_rows "Amount") october_withdrawal october_gameplay 101
          (start_date October_2022) (end_date October_2022)))
    (of_int 0) = true.
Proof.
  apply (frequency_points_need_net_deposits default_params
           (no_rows "Amount") october_withdrawal october_gameplay 101
           (start_date October_2022) (end_date October_2022));
    by vm_compute.
Defined.



(** ** Aggregation *)

Lemma wrap64_add_l (a x : Z) : wrap64 (wrap64 a + x) = wrap64 (a + x).
Proof.
  unfold wrap64.
  replace ((a + 2 ^ 63) mod 2 ^ 64 - 2 ^ 63 + x + 2 ^ 63)
    with ((a + 2 ^ 63) mod 2 ^ 64 + x) by lia.
  rewrite Zplus_mod_idemp_l. do 2 f_equal. lia.
Qed.

Lemma wrap64_in_range (z : Z) : - 2 ^ 63 ≤ z < 2 ^ 63 → wrap64 z = z.
Proof. intros Hz. unfold wrap64. rewrite Z.mod_small; lia. Qed.

Lemma wrap64_range (z : Z) : - 2 ^ 63 ≤ wrap64 z < 2 ^ 63.
Proof.
  unfold wrap64.
  pose proof (Z.mod_pos_bound (z + 2 ^ 63) (2 ^ 64)). lia.
Qed.

(** An [int64] sum is the sum of the integers, reduced to 64 bits once. *)
Lemma int_sum_wrap (xs : list Z) : int_sum xs = wrap64 (plain_sum xs).
Proof.
  unfold int_sum. change 0 with (wrap64 0) at 1.
  change (plain_sum xs) with (0 + plain_sum xs) at 1.
  generalize 0. induction xs as [|x xs IH]; intros a; simpl.
  - by rewrite Z.add_0_r.
  - rewrite wrap64_add_l, IH. f_equal. lia.
Qed.

Lemma plain_sum_perm (l k : list Z) : l ≡ₚ k → plain_sum l = plain_sum k.
Proof.
  induction 1; simpl; unfold plain_sum in *; simpl; lia.
Qed.

Lemma int_sum_perm (l k : list Z) : l ≡ₚ k → int_sum l = int_sum k.
Proof. intros Hlk. by rewrite !int_sum_wrap, (plain_sum_perm l k). Qed.

Lemma length_remove_dups_perm {A : Type} `{EqDecision A} (l k : list A) :
  l ≡ₚ k → length (remove_dups l) = length (remove_dups k).
Proof.
  intros Hlk. apply Permutation_length, NoDup_Permutation;
    [apply NoDup_remove_dups..|].
  intros x. by rewrite !elem_of_remove_dups, Hlk.
Qed.

Lemma length_remove_dups_le {A : Type} `{EqDecision A} (l : list A) :
  (length (remove_dups l) ≤ length l)%nat.
Proof.
  induction l as [|x l IH]; simpl; [done|].
  destruct (decide_rel elem_of x l); simpl; lia.
Qed.

(** Every selected row carries a parsed timestamp. *)
Lemma normalized_days_length (df : table) (uid : Z)
    (start_date end_date : datetime) :
  length (normalized_days (select df uid start_date end_date))
  = length (select df uid start_date end_date).
Proof.
  unfold normalized_days.
  assert (Forall (λ r, ∃ t, datetime_cell r = Time t)
                 (select df uid start_date end_date)) as Hall.
  { apply Forall_forall. intros r Hr. apply elem_of_select in Hr as [_ Hq].
    destruct Hq as (_ & t & Ht & _). eauto. }
  induction Hall as [|r l [t Ht] _ IH]; csimpl; [done|].
  rewrite Ht. csimpl. f_equal. exact IH.
Qed.

(** X4. Each aggregate sum of a user is the sum of the measures of the
    user's rows in the window, reduced to the range of [int64]: it always
    lies in that range, and it is the sum itself whenever the sum fits. *)
Theorem aggregate_sums_are_int64 {F : Type} `{Arith F} (cfg : params F)
    (deposit withdrawal gameplays : table) (uid : Z)
    (start_date end_date : datetime) :
  let p := calculate_loyalty_points cfg deposit withdrawal gameplays uid
             start_date end_date in
  let amounts df := plain_sum (measure <$> select df uid start_date end_date) in
  total_deposits p = wrap64 (amounts deposit)
  ∧ total_withdrawals p = wrap64 (amounts withdrawal)
  ∧ games_played p = wrap64 (amounts gameplays)
  ∧ - 2 ^ 63 ≤ total_deposits p < 2 ^ 63
  ∧ (- 2 ^ 63 ≤ amounts deposit < 2 ^ 63 → total_deposits p = amounts deposit)
  ∧ (- 2 ^ 63 ≤ amounts withdrawal < 2 ^ 63 →
     total_withdrawals p = amounts withdrawal)
  ∧ (- 2 ^ 63 ≤ amounts gameplays < 2 ^ 63 →
     games_played p = amounts gameplays).
Proof.
  intros p amounts. subst p amounts. cbn [total_deposits total_withdrawals
    games_played calculate_loyalty_points]. rewrite !int_sum_wrap.
  repeat split; try apply wrap64_range; intros; by apply wrap64_in_range.
Qed.

(** X5. The distinct days of a user are the calendar days on which one of
    the user's gameplay rows in the window falls, each counted once: never
    more than the number of those rows, and zero exactly when there is
    none. *)
Theorem distinct_days_counts_calendar_days {F : Type} `{Arith F}
    (cfg : params F) (deposit withdrawal gameplays : table) (uid : Z)
    (start_date end_date : datetime) :
  let p := calculate_loyalty_points cfg deposit withdrawal gameplays uid
             start_date end_date in
  let played := select gameplays uid start_date end_date in
  (∃ days : list datetime,
     NoDup days
     ∧ distinct_days p = Z.of_nat (length days)
     ∧ ∀ d, d ∈ days ↔
            ∃ r t, r ∈ rows gameplays ∧ qualifies uid start_date end_date r
                   ∧ datetime_cell r = Time t ∧ normalize t = d)
  ∧ 0 ≤ distinct_days p ≤ Z.of_nat (length played)
  ∧ (distinct_days p = 0 ↔ played = []).
Proof.
  intros p played. subst p. cbn [distinct_days calculate_loyalty_points].
  fold played. split; [|split].
  - exists (remove_dups (normalized_days played)).
    split; [apply NoDup_remove_dups|]. split; [done|].
    intros d. rewrite elem_of_remove_dups. unfold normalized_days.
    rewrite list_elem_of_omap. split.
    + intros (r & Hr & Hd). apply elem_of_select in Hr as [Hr Hq].
      destruct (datetime_cell r) as [|t|] eqn:Ht; try done.
      injection Hd as <-. by exists r, t.
    + intros (r & t & Hr & Hq & Ht & <-). exists r.
      split; [by apply elem_of_select|]. by rewrite Ht.
  - pose proof (length_remove_dups_le (normalized_days played)) as Hle.
    unfold played in Hle at 2. rewrite normalized_days_length in Hle.
    fold played in Hle. lia.
  - split.
    + intros Hzero.
      assert (length (remove_dups (normalized_days played)) = 0%nat) as Hlen
        by lia.
      apply length_zero_iff_nil in Hlen.
      assert (normalized_days played = []) as Hnil.
      { apply elem_of_nil_inv. intros d Hd.
        apply elem_of_remove_dups in Hd. rewrite Hlen in Hd.
        by apply elem_of_nil in Hd. }
      apply length_zero_iff_nil. unfold played.
      rewrite <- normalized_days_length. fold played. by rewrite Hnil.
    + by intros ->.
Qed.

(** The score of a user only depends on the user's rows in the window, taken
    as a multiset. *)
Lemma calculate_loyalty_points_perm {F : Type} `{Arith F} (cfg : params F)
    (d w g d' w' g' : table) (uid : Z) (start_date end_date : datetime) :
  select d' uid start_date end_date ≡ₚ select d uid start_date end_date →
  select w' uid start_date end_date ≡ₚ select w uid start_date end_date →
  select g' uid start_date end_date ≡ₚ select g uid start_date end_date →
  calculate_loyalty_points cfg d' w' g' uid start_date end_date
  = calculate_loyalty_points cfg d w g uid start_date end_date.
Proof.
  intros Hd Hw Hg. unfold calculate_loyalty_points.
  rewrite (int_sum_perm _ _ (fmap_Permutation measure _ _ Hd)),
    (int_sum_perm _ _ (fmap_Permutation measure _ _ Hw)),
    (int_sum_perm _ _ (fmap_Permutation measure _ _ Hg)),
    (Permutation_length Hd), (Permutation_length Hw).
  assert (normalized_days (select g' uid start_date end_date)
          ≡ₚ normalized_days (select g uid start_date end_date)) as Hdays
    by (unfold normalized_days; by rewrite Hg).
  by rewrite (length_remove_dups_perm _ _ Hdays).
Qed.

Lemma select_perm_extra (df df' : table) (extra : list row) (uid : Z)
    (start_date end_date : datetime) :
  rows df' ≡ₚ rows df ++ extra →
  Forall (λ r, ¬ qualifies uid start_date end_date r) extra →
  select df' uid start_date end_date ≡ₚ select df uid start_date end_date.
Proof.
  intros Hrows Hextra. unfold select. rewrite Hrows, filter_app.
  assert (filter (λ r, mask uid start_date end_date r = true) extra = [])
    as ->; [|by rewrite app_nil_r].
  apply elem_of_nil_inv. intros r Hr.
  apply list_elem_of_filter in Hr as [Hmask Hr].
  rewrite Forall_forall in Hextra. apply (Hextra r Hr).
  by apply mask_qualifies.
Qed.

(** X6. The points of a user do not depend on the order of the rows in the
    files, nor on the rows of other users, nor on rows outside the window:
    reordering the three tables and adding rows that do not count for the
    user leaves the whole record unchanged. *)
Theorem score_ignores_order_and_other_rows {F : Type} `{Arith F}
    (cfg : params F) (d w g d' w' g' : table) (xd xw xg : list row)
    (uid : Z) (start_date end_date : datetime) :
  rows d' ≡ₚ rows d ++ xd →
  rows w' ≡ₚ rows w ++ xw →
  rows g' ≡ₚ rows g ++ xg →
  Forall (λ r, ¬ qualifies uid start_date end_date r) (xd ++ xw ++ xg) →
  calculate_loyalty_points cfg d' w' g' uid start_date end_date
  = calculate_loyalty_points cfg d w g uid start_date end_date.
Proof.
  intros Hd Hw Hg Hextra.
  apply Forall_app in Hextra as [Hxd Hextra].
  apply Forall_app in Hextra as [Hxw Hxg].
  apply calculate_loyalty_points_perm; by eapply select_perm_extra.
Qed.

(** The November deposit of user 2 changes nothing for user 1. *)
Lemma score_ignores_order_and_other_rows_witness :
  calculate_loyalty_points (F:=float) default_params guest_deposit
    (no_rows "Amount") twin_gameplay 1
    (start_date October_2022) (end_date October_2022)
  = calculate_loyalty_points (F:=float) default_params solo_deposit
      (no_rows "Amount") twin_gameplay 1
      (start_date October_2022) (end_date October_2022).
Proof.
  apply (score_ignores_order_and_other_rows default_params
           solo_deposit (no_rows "Amount") twin_gameplay
           guest_deposit (no_rows "Amount") twin_gameplay
           (drop 1 (rows guest_deposit)) [] []).
  - by vm_compute.
  - by rewrite app_nil_r.
  - by rewrite app_nil_r.
  - rewrite !app_nil_r. vm_compute. constructor; [|constructor].
    intros [Huid _]. discriminate Huid.
Defined.

(** ** The analysis window *)

Lemma dt_compare_not_gt (a b : datetime) :
  dt_compare a b ≠ Gt
  ↔ year a < year b ∨ year a = year b
    ∧ (month a < month b ∨ month a = month b
       ∧ (day a < day b ∨ day a = day b
          ∧ (hour a < hour b ∨ hour a = hour b
             ∧ (minute a < minute b ∨ minute a = minute b
                ∧ second a ≤ second b)))).
Proof.
  unfold dt_compare, lex.
  destruct (Z.compare_spec (year a) (year b));
    destruct (Z.compare_spec (month a) (month b));
    destruct (Z.compare_spec (day a) (day b));
    destruct (Z.compare_spec (hour a) (hour b));
    destruct (Z.compare_spec (minute a) (minute b));
    destruct (Z.compare_spec (second a) (second b));
    (split; [intros Hne; try (by destruct Hne); lia | intros Hle Heq;
                                                      try discriminate Heq; lia]).
Qed.

(** X7. For timestamps with a clock time of day, the window of a month of
    the sidebar holds exactly the timestamps of that calendar month of 2022,
    from the first day to the last; so no timestamp counts in two months. *)
Theorem window_is_calendar_month (m : month_choice) (t : datetime) :
  clock_time t →
  (in_window (start_date m) (end_date m) t
   ↔ year t = 2022 ∧ month t = month_number m ∧ 1 ≤ day t ≤ last_day m)
  ∧ ∀ m', in_window (start_date m) (end_date m) t →
          in_window (start_date m') (end_date m') t → m = m'.
Proof.
  intros (Hh & Hmi & Hs).
  assert (∀ m0, in_window (start_date m0) (end_date m0) t
                ↔ year t = 2022 ∧ month t = month_number m0
                  ∧ 1 ≤ day t ≤ last_day m0) as Hiff.
  { intros m0. unfold in_window. rewrite !dt_compare_not_gt.
    destruct m0; simpl; lia. }
  split; [apply Hiff|].
  intros m' Hin Hin'. apply Hiff in Hin, Hin'.
  destruct m, m'; simpl in *; try done; lia.
Qed.

Lemma window_is_calendar_month_witness :
  in_window (start_date October_2022) (end_date October_2022)
            (mk_datetime 2022 10 31 23 59 0).
Proof.
  apply (window_is_calendar_month October_2022
           (mk_datetime 2022 10 31 23 59 0)); by vm_compute.
Defined.

(** ** Validation *)

Section ValidationFacts.
Variable strptime : string → option datetime.



(** Conversion leaves a parsed frame as it is. *)
Lemma converted_parsed (df : table) :
  parsed_frame df → converted strptime df = df.
Proof.
  unfold parsed_frame, converted. destruct df as [cols rs]. simpl.
  intros Hall. f_equal. induction Hall as [|r rs [t Ht] _ IH]; csimpl; [done|].
  f_equal; [|exact IH]. destruct r as [u v c]. simpl in *. by subst c.
Qed.

Lemma invalid_count_parsed (df : table) :
  parsed_frame df → invalid_count df = 0.
Proof.
  unfold parsed_frame, invalid_count. intros Hall.
  assert (filter (λ r, isna (datetime_cell r) = true) (rows df) = []) as ->;
    [|done].
  apply elem_of_nil_inv. intros r Hr.
  apply list_elem_of_filter in Hr as [Hna Hr].
  rewrite Forall_forall in Hall. destruct (Hall r Hr) as [t Ht].
  by rewrite Ht in Hna.
Qed.

Lemma normalized_parsed (df : table) :
  parsed_frame (dropna (converted strptime df)).
Proof. apply dropna_rows_parsed. Qed.

Lemma filter_complement_length {A : Type} (P : A → Prop)
    `{∀ x, Decision (P x)} (l : list A) :
  (length (filter P l) + length (filter (λ x, ¬ P x) l) = length l)%nat.
Proof.
  rewrite <- length_app. apply Permutation_length, filter_app_complement.
Qed.

(** X8. No row is lost without being counted: the rows of the table returned
    and the invalid rows reported add up to the rows of the table given. *)
Theorem process_data_conserves_rows (l : loc) (name : string) (s : state)
    (frame : table) :
  heap s !! l = Some frame →
  "Datetime" ∈ columns frame →
  let out := process_data strptime (Some l) name s in
  ∃ (l' : loc) (returned : table),
    fst out = Some l'
    ∧ heap (snd out) !! l' = Some returned
    ∧ Z.of_nat (length (rows returned))
      + invalid_count (converted strptime frame)
      = Z.of_nat (length (rows frame))
    ∧ (length (rows returned) ≤ length (rows frame))%nat.
Proof.
  intros Hl Hcol out. subst out.
  rewrite (process_data_unfold _ _ _ _ _ Hl),
    bool_decide_eq_true_2 by done. cbv zeta.
  assert (Z.of_nat (length (rows (dropna (converted strptime frame))))
          + invalid_count (converted strptime frame)
          = Z.of_nat (length (rows frame))) as Hsum.
  { rewrite invalid_count_converted, dropna_converted_rows, length_fmap.
    pose proof (filter_complement_length
                  (λ r, to_datetime strptime (datetime_cell r) = NaT)
                  (rows frame)) as Hlen.
    lia. }
  assert (0 ≤ invalid_count (converted strptime frame)) as Hnonneg
    by (unfold invalid_count; lia).
  destruct (0 <? invalid_count (converted strptime frame)) eqn:Hbad; simpl.
  - eexists _, _. split; [done|]. split; [by rewrite lookup_insert_eq|].
    split; [done|]. lia.
  - exists l, (converted strptime frame).
    split; [done|]. split; [by rewrite lookup_insert_eq|].
    apply Z.ltb_ge in Hbad.
    rewrite <- (dropna_nothing (converted strptime frame)) at 1 3 by lia.
    split; [done|]. lia.
Qed.

(** X9. Validation is idempotent: a table whose timestamps are all parsed
    goes through unchanged (the same object, no message, the same store),
    and so does the table a first call returned, on a second call. *)
Theorem process_data_idempotent (l : loc) (name name' : string) (s : state)
    (frame : table) :
  heap s !! l = Some frame →
  "Datetime" ∈ columns frame →
  (parsed_frame frame → process_data strptime (Some l) name s = (Some l, s))
  ∧ let out := process_data strptime (Some l) name s in
    process_data strptime (fst out) name' (snd out) = out.
Proof.
  intros Hl Hcol.
  assert (∀ l0 n0 s0 f0, heap s0 !! l0 = Some f0 → "Datetime" ∈ columns f0 →
            parsed_frame f0 →
            process_data strptime (Some l0) n0 s0 = (Some l0, s0)) as Hfix.
  { intros l0 n0 s0 f0 Hl0 Hcol0 Hparsed.
    rewrite (process_data_unfold _ _ _ _ _ Hl0),
      bool_decide_eq_true_2 by done. cbv zeta.
    rewrite converted_parsed, invalid_count_parsed by done. simpl.
    destruct s0 as [h lg]. simpl in *. by rewrite insert_id. }
  split; [by apply Hfix|]. cbv zeta.
  rewrite (process_data_unfold _ _ _ _ _ Hl),
    bool_decide_eq_true_2 by done. cbv zeta.
  destruct (0 <? invalid_count (converted strptime frame)) eqn:Hbad; simpl.
  - eapply Hfix; simpl; [by rewrite lookup_insert_eq|done|].
    apply normalized_parsed.
  - eapply Hfix; simpl; [by rewrite lookup_insert_eq|done|].
    apply Z.ltb_ge in Hbad.
    rewrite <- (dropna_nothing (converted strptime frame)).
    + apply normalized_parsed.
    + unfold invalid_count in *. lia.
Qed.

(** One call shows at most one message, after those already shown. *)
Lemma process_data_log (df : option loc) (name : string) (s : state) :
  ∃ msgs, log (snd (process_data strptime df name s)) = log s ++ msgs
          ∧ (length msgs ≤ 1)%nat
          ∧ (fst (process_data strptime df name s) = None →
             ∀ n k, st_warning n k ∉ msgs)
          ∧ (is_Some (fst (process_data strptime df name s)) →
             ∀ k, st_error k ∉ msgs).
Proof.
  destruct df as [l|].
  { destruct (heap s !! l) as [frame|] eqn:Hl.
    - rewrite (process_data_unfold _ _ _ _ _ Hl).
      case_bool_decide; cbv zeta.
      + destruct (0 <? _); simpl.
        * eexists [_]. split; [done|]. split; [done|].
          split; [done|]. intros _ k Hin.
          apply list_elem_of_singleton in Hin. discriminate Hin.
        * exists []. rewrite app_nil_r. split; [done|]. split; [simpl; lia|].
          split; [done|]. intros _ k Hin. by apply elem_of_nil in Hin.
      + eexists [_]. split; [done|]. split; [done|].
        split; [|by intros [? [=]]]. intros _ n k Hin.
        apply list_elem_of_singleton in Hin. discriminate Hin.
    - unfold process_data, bind, lookup_frame. rewrite Hl. simpl.
      exists []. rewrite app_nil_r. split; [done|]. split; [simpl; lia|].
      split; intros _ *; apply not_elem_of_nil. }
  exists []. simpl. rewrite app_nil_r. split; [done|]. split; [simpl; lia|].
  split; intros _ *; apply not_elem_of_nil.
Qed.

(** X10. A run never removes or rewrites a message already shown, and it
    adds at most three: at most one per file. *)
Theorem analysis_shows_at_most_three_messages {F : Type} `{Arith F}
    (cfg : params F) (m : month_choice) (d w g : option loc) (s : state) :
  ∃ msgs, log (snd (analysis strptime cfg m d w g s)) = log s ++ msgs
          ∧ (length msgs ≤ 3)%nat.
Proof.
  assert (snd (analysis strptime cfg m d w g s)
          = snd (process_files strptime d w g s)) as ->.
  { unfold analysis, bind.
    destruct (process_files strptime d w g s) as [[[rd rw] rg] s'].
    unfold deref, lookup_frame, ret. simpl.
    destruct rd, rw, rg; simpl; repeat case_match; done. }
  unfold process_files, bind, ret.
  destruct (process_data_log d "Deposit" s) as (m1 & H1 & Hn1 & _).
  destruct (process_data strptime d "Deposit" s) as [rd s1]. simpl in H1.
  destruct (process_data_log w "Withdrawal" s1) as (m2 & H2 & Hn2 & _).
  destruct (process_data strptime w "Withdrawal" s1) as [rw s2]. simpl in H2.
  destruct (process_data_log g "Gameplay" s2) as (m3 & H3 & Hn3 & _).
  destruct (process_data strptime g "Gameplay" s2) as [rg s3]. simpl in *.
  exists (m1 ++ m2 ++ m3).
  rewrite H3, H2, H1, <- !app_assoc. split; [done|].
  rewrite !length_app. lia.
Qed.




End ValidationFacts.


Lemma process_data_conserves_rows_witness :
  ∃ (l' : loc) (returned : table),
    fst (process_data strptime_digits (Some 1%positive) "Deposit" messy_state)
    = Some l'
    ∧ heap (snd (process_data strptime_digits (Some 1%positive) "Deposit"
                   messy_state)) !! l' = Some returned
    ∧ (length (rows returned) ≤ 2)%nat.
Proof.
  destruct (process_data_conserves_rows strptime_digits 1%positive "Deposit"
              messy_state messy_deposit)
    as (l' & returned & Hout & Hheap & _ & Hle).
  - by vm_compute.
  - vm_compute. repeat constructor.
  - exists l', returned. split; [exact Hout|]. split; [exact Hheap|].
    exact Hle.
Defined.

Lemma process_data_idempotent_witness :
  let out := process_data strptime_digits (Some 1%positive) "Deposit"
               messy_state in
  process_data strptime_digits (fst out) "Deposit" (snd out) = out.
Proof.
  cbv zeta.
  destruct (process_data_idempotent strptime_digits 1%positive "Deposit"
              "Deposit" messy_state messy_deposit) as [_ Hagain].
  - by vm_compute.
  - vm_compute. repeat constructor.
  - exact Hagain.
Defined.

(** ** Ranking and the dashboard *)

Section RankingOrder.
Context {F : Type} `{Arith F} (ok : F → Prop) `{!ArithOrder F ok}.
Variable cfg : params F.
Variables deposit withdrawal gameplays : table.
Variable m : month_choice.

(** Every ranked row is the record computed for one user of [all_users]. *)
Lemma ranked_score (r : ranked F) :
  r ∈ monthly_rankings cfg deposit withdrawal gameplays m →
  ∃ uid, uid ∈ all_users deposit withdrawal gameplays
         ∧ score r = calculate_loyalty_points cfg deposit withdrawal
                       gameplays uid (start_date m) (end_date m).
Proof.
  intros Hr.
  assert (score r ∈ points_df cfg deposit withdrawal gameplays m) as Hin.
  { rewrite <- sort_values_perm, <- assign_rank_score.
    apply list_elem_of_fmap. by exists r. }
  unfold points_df in Hin. apply list_elem_of_fmap in Hin as (uid & -> & Hu).
  by exists uid.
Qed.


End RankingOrder.


Section TopFifty.
Context {F : Type} `{Arith F}.

(** Ranks numbered from [a]. *)
Lemma ranks_from_bound (l : list (points F)) (a : nat) :
  Forall (λ r : ranked F, Z.of_nat a ≤ rank r)
         (zip_with mk_ranked l (Z.of_nat <$> seq a (length l))).
Proof.
  revert a. induction l as [|x l IH]; intros a; csimpl; constructor.
  - simpl. lia.
  - eapply Forall_impl; [apply (IH (S a))|]. simpl. intros r Hr. lia.
Qed.

Lemma take_ranks_from (l : list (points F)) (a k : nat) :
  take k (zip_with mk_ranked l (Z.of_nat <$> seq a (length l)))
  = filter (λ r : ranked F, rank r < Z.of_nat (a + k))
           (zip_with mk_ranked l (Z.of_nat <$> seq a (length l))).
Proof.
  revert a k. induction l as [|x l IH]; intros a k; csimpl.
  { by rewrite take_nil. }
  rewrite filter_cons. simpl. destruct k as [|k].
  - rewrite take_0. destruct (decide _) as [Hlt|_]; [lia|].
    symmetry. apply elem_of_nil_inv. intros r Hr.
    apply list_elem_of_filter in Hr as [Hlt Hr].
    pose proof (ranks_from_bound l (S a)) as Hb.
    rewrite Forall_forall in Hb. specialize (Hb r Hr). lia.
  - destruct (decide _) as [_|Hge]; [|lia].
    csimpl. f_equal. rewrite (IH (S a) k).
    apply filter_equiv. intros r. lia.
Qed.

(** X13. [top_50] holds the ranked users with rank at most 50, all of them
    and no other, in the order of the ranking: min(50, N) rows for N ranked
    users. *)
Theorem top_50_is_ranks_up_to_50 (cfg : params F)
    (deposit withdrawal gameplays : table) (m : month_choice) :
  let rankings := monthly_rankings cfg deposit withdrawal gameplays m in
  let top := top_50 cfg deposit withdrawal gameplays m in
  player <$> top = filter (λ r, rank r ≤ 50) rankings
  ∧ length top = (50 `min` size (user_id_set deposit withdrawal gameplays))%nat
  ∧ rank ∘ player <$> top = Z.of_nat <$> seq 1 (length top).
Proof.
  intros rankings top. subst top. unfold top_50.
  destruct (allocate_columns (bonus_pool cfg) rankings) as (Hplayers & _).
  assert (length (take top_k rankings)
          = (50 `min` size (user_id_set deposit withdrawal gameplays))%nat)
    as Hlen.
  { rewrite length_take. unfold rankings, monthly_rankings.
    rewrite <- (length_fmap score (assign_rank _)), assign_rank_score,
      sort_values_length, points_df_length. done. }
  split; [|split].
  - fold rankings. rewrite Hplayers. unfold rankings, monthly_rankings,
      assign_rank. rewrite (take_ranks_from _ 1 top_k).
    apply filter_equiv. intros r. unfold top_k. lia.
  - fold rankings. by rewrite <- (length_fmap player), Hplayers.
  - fold rankings. rewrite list_fmap_compose, Hplayers.
    rewrite <- (length_fmap player (allocate _ _)), Hplayers.
    unfold rankings, monthly_rankings.
    rewrite fmap_take, assign_rank_rank, <- fmap_take, take_seq, length_take.
    rewrite <- (length_fmap score (assign_rank _)), assign_rank_score.
    done.
Qed.
End TopFifty.

Section ExactOrder.
Local Open Scope Q_scope.
Variable cfg : params Q.
Variables deposit withdrawal gameplays : table.
Variable m : month_choice.



End ExactOrder.



Lemma sub_not_finite_l (x y : float) :
  is_finite x = false → is_finite (x - y) = false.
Proof.
  rewrite !is_finite_shape, sub_spec.
  by destruct (Prim2SF x) as [ |[]| | ], (Prim2SF y) as [ |[]| | ].
Qed.

Lemma sub_not_finite_r (x y : float) :
  is_finite y = false → is_finite (x - y) = false.
Proof.
  rewrite !is_finite_shape, sub_spec.
  by destruct (Prim2SF x) as [ |[]| | ], (Prim2SF y) as [ |[]| | ].
Qed.



(** X17. The percentages of the breakdown divide by the total points as
    they stand: for a user whose total points are zero, none of the three
    percentages is a finite number on binary64. *)
Theorem breakdown_of_zero_total (r : ranked float) :
  PrimFloat.eqb (total_points (score r)) (of_int 0) = true →
  is_finite (deposit_pct (breakdown_row r)) = false
  ∧ is_finite (gameplay_pct (breakdown_row r)) = false
  ∧ is_finite (other_pct (breakdown_row r)) = false.
Proof.
  intros Hzero. apply eqb_zero_shape in Hzero.
  unfold breakdown_row. cbn [deposit_pct gameplay_pct other_pct].
  unfold fsub, binary64_sub. cbn [fmul fdiv of_int binary64].
  split; [|split].
  - by apply mul_not_finite_l, div_zero_not_finite.
  - by apply mul_not_finite_l, div_zero_not_finite.
  - by apply sub_not_finite_r, mul_not_finite_l, div_zero_not_finite.
Qed.

(** The sample data in November: every score is zero. *)
Lemma breakdown_of_zero_total_witness :
  Forall (λ b, is_finite (deposit_pct b) = false)
    (top_players
       (monthly_rankings (F:=float) default_params october_deposit
          october_withdrawal october_gameplay November_2022)).
Proof.
  unfold top_players. apply Forall_fmap.
  assert (Forall (λ r : ranked float,
                    PrimFloat.eqb (total_points (score r)) (of_int 0) = true)
            (take 10 (monthly_rankings (F:=float) default_params
                        october_deposit october_withdrawal october_gameplay
                        November_2022))) as Hzero
    by (vm_compute; repeat constructor).
  eapply Forall_impl; [exact Hzero|].
  intros r Hr. by destruct (breakdown_of_zero_total r Hr) as [Hd _].
Defined.

(** ** The sidebar and the guard of the run *)

(** A number between two finite numbers is finite. *)
Lemma between_finite (lo hi x : float) :
  is_finite lo = true → is_finite hi = true → between lo hi x →
  is_finite x = true.
Proof.
  unfold between. rewrite !is_finite_shape, !leb_spec.
  unfold SFleb, SFcompare.
  destruct (Prim2SF lo) as [ | | | ], (Prim2SF hi) as [ | | | ],
    (Prim2SF x) as [ |[]| | ]; simpl; try done; by intros _ _ [? ?].
Qed.

Lemma sidebar_params_finite (cfg : params float) :
  sidebar_params cfg → finite_multipliers cfg.
Proof.
  intros (Hd & Hw & Hf & Hg & _).
  repeat split; eapply between_finite; try eassumption; by vm_compute.
Qed.

(** Without a selected row the total compares equal to zero. *)
Lemma zero_activity_total (cfg : params float)
    (deposit withdrawal gameplays : table) (uid : Z)
    (start_date end_date : datetime) :
  finite_multipliers cfg → deposit_cap cfg < 2 ^ 63 →
  select deposit uid start_date end_date = [] →
  select withdrawal uid start_date end_date = [] →
  select gameplays uid start_date end_date = [] →
  sf_zero (Prim2SF (total_points
                      (calculate_loyalty_points cfg deposit withdrawal
                         gameplays uid start_date end_date))) = true.
Proof.
  intros (Hdm & Hwm & Hfm & Hgm) Hcap Hd Hw Hg.
  rewrite no_rows_aggregates by done. cbn -[float_of_Z Z.pow].
  pose proof float_of_Z_0 as H0.
  assert (sf_zero (Prim2SF (if 0 <? deposit_cap cfg
            then py_min (deposit_multiplier cfg * float_of_Z 0)%float
                        (float_of_Z (deposit_cap cfg))
            else (deposit_multiplier cfg * float_of_Z 0)%float)) = true)
    as Hdp.
  { pose proof (mul_finite_zero _ _ Hdm H0) as Hz.
    destruct (0 <? deposit_cap cfg) eqn:Hpos; [|done].
    unfold py_min; cbn -[float_of_Z Z.pow].
    rewrite float_of_Z_not_below_zero; [done| |done].
    apply Z.ltb_lt in Hpos. lia. }
  rewrite Z.mul_0_r.
  repeat apply add_zero_zero; try done; by apply mul_finite_zero.
Qed.

(** X18. Whatever the sliders and inputs of the sidebar are set to, a user
    of the tables without a row in the selected month is ranked with total
    points that compare equal to zero, and with zero in every aggregate. *)
Theorem sidebar_run_scores_inactive_users_zero (cfg : params float)
    (deposit withdrawal gameplays : table) (m : month_choice)
    (r : ranked float) :
  sidebar_params cfg →
  r ∈ monthly_rankings cfg deposit withdrawal gameplays m →
  p_user_id (score r) ∉ active_users deposit withdrawal gameplays m →
  PrimFloat.eqb (total_points (score r)) (of_int 0) = true
  ∧ total_deposits (score r) = 0 ∧ total_withdrawals (score r) = 0
  ∧ games_played (score r) = 0 ∧ distinct_days (score r) = 0.
Proof.
  intros Hside Hr Hinactive.
  apply ranked_score in Hr as (uid & Huid & Hscore).
  rewrite Hscore in Hinactive |- *. cbn [p_user_id calculate_loyalty_points]
    in Hinactive.
  assert (∀ df, df ∈ [deposit; withdrawal; gameplays] →
                select df uid (start_date m) (end_date m) = []) as Hnone.
  { intros df Hdf. apply select_nil. intros row Hrow Hq.
    apply Hinactive, elem_of_active_users. by exists df, row. }
  assert (select deposit uid (start_date m) (end_date m) = []) as Hd
    by (apply Hnone; repeat constructor).
  assert (select withdrawal uid (start_date m) (end_date m) = []) as Hw
    by (apply Hnone; repeat constructor).
  assert (select gameplays uid (start_date m) (end_date m) = []) as Hg
    by (apply Hnone; repeat constructor).
  split.
  - apply zero_eqb; [|done]. apply zero_activity_total; try done.
    + by apply sidebar_params_finite.
    + destruct Hside as (_ & _ & _ & _ & _ & Hcap & _). lia.
  - by rewrite no_rows_aggregates.
Qed.

Lemma sidebar_run_scores_inactive_users_zero_witness :
  Forall (λ r, PrimFloat.eqb (total_points (score r)) (of_int 0) = true)
    (monthly_rankings (F:=float) default_params october_deposit
       october_withdrawal october_gameplay November_2022).
Proof.
  assert (sidebar_params default_params) as Hside by (by vm_compute).
  apply (proj2 (Forall_forall _ _)). intros r Hr.
  destruct (sidebar_run_scores_inactive_users_zero default_params
              october_deposit october_withdrawal october_gameplay
              November_2022 r Hside Hr) as [Hzero _]; [|exact Hzero].
  assert (active_users october_deposit october_withdrawal october_gameplay
            November_2022 = []) as -> by (by vm_compute).
  apply not_elem_of_nil.
Defined.

(** X19. The run needs the three files: when one of them failed to load,
    no ranking and no allocation is produced, and validation shows no
    message for the missing file. *)
Theorem analysis_needs_every_file {F : Type} `{Arith F}
    (strptime : string → option datetime) (cfg : params F)
    (m : month_choice) (d w g : option loc) (s : state) :
  None ∈ [d; w; g] →
  fst (analysis strptime cfg m d w g s) = None
  ∧ ∀ name, process_data strptime None name s = (None, s).
Proof.
  intros Hin. split; [|done].
  unfold analysis, process_files, bind.
  destruct (process_data strptime d "Deposit" s) as [rd s1] eqn:Hd.
  destruct (process_data strptime w "Withdrawal" s1) as [rw s2] eqn:Hw.
  destruct (process_data strptime g "Gameplay" s2) as [rg s3] eqn:Hg.
  assert (rd = None ∨ rw = None ∨ rg = None) as Hnone.
  { apply elem_of_cons in Hin as [<-|Hin].
    { left. by injection Hd as <- _. }
    apply elem_of_cons in Hin as [<-|Hin].
    { right. left. by injection Hw as <- _. }
    apply elem_of_cons in Hin as [<-|Hin]; [|by apply elem_of_nil in Hin].
    right. right. by injection Hg as <- _. }
  unfold ret. simpl.
  destruct Hnone as [ -> | [ -> | -> ] ]; simpl;
    repeat match goal with
           | |- context [deref ?x ?s] =>
               destruct (deref x s) as [ [ ? | ] ? ]; simpl
           end; done.
Qed.

Lemma analysis_needs_every_file_witness :
  fst (analysis strptime_digits (F:=float) default_params October_2022
         (Some 1%positive) None (Some 3%positive) sample_state) = None.
Proof.
  apply (analysis_needs_every_file strptime_digits default_params
           October_2022 (Some 1%positive) None (Some 3%positive)
           sample_state).
  right. left.
Defined.
